(** * kaplay-physics-rapier: the body, joint and stepper adapters of
      [src/index.ts], embedded shallowly.

    A JavaScript [number] is idealised as an exact rational ([Q]); equality of
    computed numbers is therefore [Qeq] (written [==]), and rounding is out of
    the picture.  Objects of the host engine (kaplay) and of the physics engine
    (Rapier) are records; the module-level [world] and the closure variables
    [rbody] and [collider] of [rapierBody] are threaded explicitly through a
    state-and-exception monad in which, as in JavaScript, a [throw] keeps every
    mutation made before it. *)

From Stdlib Require Import QArith Qround Lqa String List.
From stdpp Require Import gmap strings.

Open Scope Q_scope.

(** ** Vectors and rectangles *)

Record Vec2 : Type := vec2 { vx : Q; vy : Q }.

(** Componentwise numeric equality of two vectors. *)
Definition vec_eq (a b : Vec2) : Prop := vx a == vx b /\ vy a == vy b.

Infix "=v=" := vec_eq (at level 70, no associativity).

Record Rect : Type := mkRect { rect_pos : Vec2; rect_width : Q; rect_height : Q }.

(** ** The host engine's visual object *)

(** The nine keys of kaplay's [Anchor] string type. *)
Inductive Anchor : Type :=
| bot | botleft | botright
| center | left | right
| top | topleft | topright.

(** [obj.anchor] is either one of the names or a point. *)
Inductive AnchorValue : Type :=
| AnchorName (a : Anchor)
| AnchorPoint (p : Vec2).

(** The fields of a game object that the plugin reads or writes.  The [is_*]
    flags are the answers of [obj.is(tag)]; [renderArea_bbox] is what
    [obj.renderArea().bbox()] returns. *)
Record GameObj : Type := mkGameObj {
  pos : Vec2;
  anchor : option AnchorValue;
  angle : Q;
  is_polygon : bool;
  is_rect : bool;
  is_circle : bool;
  is_rotate : bool;
  renderArea_bbox : Rect;
  pts : list Vec2;
  width : Q;
  height : Q;
  radius : Q;
}.

Definition set_pos (p : Vec2) (o : GameObj) : GameObj :=
  mkGameObj p (anchor o) (angle o) (is_polygon o) (is_rect o) (is_circle o)
            (is_rotate o) (renderArea_bbox o) (pts o) (width o) (height o) (radius o).

Definition set_angle (a : Q) (o : GameObj) : GameObj :=
  mkGameObj (pos o) (anchor o) a (is_polygon o) (is_rect o) (is_circle o)
            (is_rotate o) (renderArea_bbox o) (pts o) (width o) (height o) (radius o).

(** [obj.use(k.rotate(a))]: attaches the rotate component. *)
Definition use_rotate (a : Q) (o : GameObj) : GameObj :=
  mkGameObj (pos o) (anchor o) a (is_polygon o) (is_rect o) (is_circle o)
            true (renderArea_bbox o) (pts o) (width o) (height o) (radius o).

(** ** Coordinate transform *)

Definition anchorToCenter (a : Anchor) : Q * Q :=
  match a with
  | bot => (0, -0.5)
  | botleft => (0.5, -0.5)
  | botright => (-0.5, -0.5)
  | center => (0, 0)
  | left => (0.5, 0)
  | right => (-0.5, 0)
  | top => (0, 0.5)
  | topleft => (0.5, 0.5)
  | topright => (-0.5, 0.5)
  end.

Definition getDefaultAnchorFor (obj : GameObj) : Anchor :=
  if is_circle obj then center else topleft.

(** [obj.anchor ?? getDefaultAnchorFor(obj)] *)
Definition anchorOf (obj : GameObj) : AnchorValue :=
  match anchor obj with
  | Some a => a
  | None => AnchorName (getDefaultAnchorFor obj)
  end.

(** The [deltaX], [deltaY] both translations compute from the anchor. *)
Definition anchorDelta (a : AnchorValue) : Q * Q :=
  match a with
  | AnchorName n => anchorToCenter n
  | AnchorPoint p => (0.5 - vx p, 0.5 - vy p)
  end.

(** [isVisible ? obj.renderArea().bbox() : new k.Rect(k.vec2(0, 0), 0, 0)] *)
Definition renderAreaOf (obj : GameObj) (isVisible : bool) : Rect :=
  if isVisible then renderArea_bbox obj else mkRect (vec2 0 0) 0 0.

Definition translateAnchorToCenter (obj : GameObj) (isVisible : bool) : Vec2 :=
  let renderArea := renderAreaOf obj isVisible in
  let '(deltaX, deltaY) := anchorDelta (anchorOf obj) in
  vec2 (vx (pos obj) + rect_width renderArea * deltaX)
       (vy (pos obj) + rect_height renderArea * deltaY).

Definition translateCenterToAnchor (p : Vec2) (obj : GameObj) (isVisible : bool) : Vec2 :=
  if is_polygon obj then vec2 (vx p) (vy p)
  else
    let renderArea := renderAreaOf obj isVisible in
    let '(deltaX, deltaY) := anchorDelta (anchorOf obj) in
    vec2 (vx p + rect_width renderArea * - deltaX)
         (vy p + rect_height renderArea * - deltaY).

(** The "visible shape" test of [ensureBody] and [update]. *)
Definition isVisibleOf (obj : GameObj) : bool :=
  is_polygon obj || is_rect obj || is_circle obj.

(** [convertPolygonPts]: the vertex list flattened to x0, y0, x1, y1, ...
    Numbers being exact here, the [Float32Array] holds them as they are. *)
Fixpoint convertPolygonPts (l : list Vec2) : list Q :=
  match l with
  | nil => nil
  | pt :: rest => vx pt :: vy pt :: convertPolygonPts rest
  end.

(** ** The physics engine's world *)

Inductive RigidBodyDesc : Type := fixed | kinematicVelocityBased | dynamic.

Record RigidBody : Type := mkRigidBody {
  rb_desc : RigidBodyDesc;
  rb_translation : Vec2;
  rb_rotation : Q;            (* the angle as it was set; see [eng_angle] *)
  rb_linvel : Vec2;
  rb_angvel : Q;
  rb_force : Vec2;
  rb_gravityScale : Q;
  rb_lockTranslations : bool;
  rb_lockRotations : bool;
  rb_sleeping : bool;
  rb_colliders : list nat;   (* handles of the attached colliders: [collider(i)] *)
}.

Inductive ColliderDesc : Type :=
| cuboid (hx hy : Q)
| ball (r : Q)
| convexPolygon (vertices : list Q).

(** A collider's mass is derived from its density until [setMass] fixes it. *)
Inductive MassProps : Type := Density (d : Q) | Mass (m : Q).

Record Collider : Type := mkCollider {
  co_shape : ColliderDesc;
  co_parent : nat;
  co_massProps : MassProps;
  co_restitution : Q;
}.

Record World : Type := mkWorld {
  gravity : Vec2;
  bodies : gmap nat RigidBody;
  colliders : gmap nat Collider;
  joints : gmap nat (nat * nat);   (* impulse joints: the two bodies each connects *)
  next_handle : nat;
}.

Record Ray : Type := mkRay { origin : Vec2; dir : Vec2 }.

(** The point a ray reaches at time of impact [toi]. *)
Definition pointAt (r : Ray) (toi : Q) : Vec2 :=
  vec2 (vx (origin r) + toi * vx (dir r)) (vy (origin r) + toi * vy (dir r)).

Inductive JointData : Type :=
| JFixed (anchor1 : Vec2) (frame1 : Q) (anchor2 : Vec2) (frame2 : Q)
| JPrismatic (anchor1 anchor2 : Vec2) (axis : option Vec2)
| JRevolute (anchor1 anchor2 : Vec2)
| JRope (length : option Q) (anchor1 anchor2 : Vec2)
| JSpring (restLength stiffness damping : option Q) (anchor1 anchor2 : Vec2).

(** ** Exceptions and the state monad *)

(** [Error msg] is a [throw new Error(msg)] of the plugin itself; [TypeError]
    is what the runtime or the engine raises on a missing object. *)
Inductive Exn : Type :=
| Error (msg : string)
| TypeError.

Inductive Outcome (A : Type) : Type :=
| Done (a : A)
| Throw (e : Exn).

Arguments Done {A} a.
Arguments Throw {A} e.

(** A computation over a state [S]: the state comes back also when it throws. *)
Definition M (S A : Type) : Type := S -> Outcome A * S.

Definition ret {S A : Type} (a : A) : M S A := fun s => (Done a, s).

Definition bind {S A B : Type} (m : M S A) (f : A -> M S B) : M S B :=
  fun s =>
    match m s with
    | (Done a, s') => f a s'
    | (Throw e, s') => (Throw e, s')
    end.

Definition throw {S A : Type} (e : Exn) : M S A := fun s => (Throw e, s).

Definition gets {S A : Type} (f : S -> A) : M S A := fun s => (Done (f s), s).

Definition modify {S : Type} (f : S -> S) : M S unit := fun s => (Done tt, f s).

Notation "'let*' x ':=' c1 'in' c2" := (bind c1 (fun x => c2))
  (at level 10, x name, c1 at level 100, c2 at level 200).
Notation "c1 ;; c2" := (bind c1 (fun _ => c2))
  (at level 100, c2 at level 200, right associativity).

(** The parts of the engine and of the host that the plugin uses as black
    boxes: geometry, the solver, the dynamics of forces and impulses, and the
    joint set. *)
Record Engine : Type := mkEngine {
  (* R.ColliderDesc.convexHull(points): null when no hull can be built *)
  eng_convexHull : list Q -> option ColliderDesc;
  (* world.castRay(ray, maxToi, solid, filterFlags, filterGroups,
                   filterExcludeCollider, filterExcludeRigidBody) *)
  eng_castRay : World -> Ray -> Q -> bool -> option nat -> option nat ->
                option nat -> option nat -> option (nat * Q);
  (* world.step() *)
  eng_step : World -> World;
  (* rbody.mass() *)
  eng_mass : World -> nat -> Q;
  (* the linear velocity after rbody.applyImpulse(v, _) *)
  eng_applyImpulse : Vec2 -> RigidBody -> Vec2;
  (* the force accumulator after rbody.addForce(v, _) *)
  eng_addForce : Vec2 -> RigidBody -> Vec2;
  (* the angular velocity after rbody.applyTorqueImpulse(t, _) *)
  eng_applyTorqueImpulse : Q -> RigidBody -> Q;
  (* world.createImpulseJoint(params, parent1, parent2, wakeUp), for a
     description that is there *)
  eng_createImpulseJoint :
    JointData -> nat -> nat -> bool -> M World nat;
  (* world.removeImpulseJoint(joint, wakeUp) *)
  eng_removeImpulseJoint : nat -> bool -> World -> World;
  (* what rbody.rotation() reports for a rotation set to a given angle: the
     engine keeps a rotation, not the number it was given *)
  eng_angle : Q -> Q;
}.

(** The host context [k]. *)
Record KaboomCtx : Type := mkKaboomCtx {
  k_rad2deg : Q -> Q;
}.

(** ** The engine's bookkeeping: bodies and colliders by handle *)

Definition set_bodies (bs : gmap nat RigidBody) (w : World) : World :=
  mkWorld (gravity w) bs (colliders w) (joints w) (next_handle w).

Definition set_colliders (cs : gmap nat Collider) (w : World) : World :=
  mkWorld (gravity w) (bodies w) cs (joints w) (next_handle w).

Definition set_gravity (g : Vec2) (w : World) : World :=
  mkWorld g (bodies w) (colliders w) (joints w) (next_handle w).

Definition bump_handle (w : World) : World :=
  mkWorld (gravity w) (bodies w) (colliders w) (joints w) (S (next_handle w)).

(** A body as [world.createRigidBody(desc)] leaves it. *)
Definition newRigidBody (desc : RigidBodyDesc) : RigidBody :=
  mkRigidBody desc (vec2 0 0) 0 (vec2 0 0) 0 (vec2 0 0) 1 false false false nil.

Definition createRigidBody (desc : RigidBodyDesc) : M World nat :=
  fun w =>
    let h := next_handle w in
    (Done h, bump_handle (set_bodies (<[h := newRigidBody desc]> (bodies w)) w)).

(** A method call on a body object: a [TypeError] when the handle is dead. *)
Definition askBody {A : Type} (h : nat) (f : RigidBody -> A) : M World A :=
  fun w =>
    match bodies w !! h with
    | Some b => (Done (f b), w)
    | None => (Throw TypeError, w)
    end.

Definition updBody (h : nat) (f : RigidBody -> RigidBody) : M World unit :=
  fun w =>
    match bodies w !! h with
    | Some b => (Done tt, set_bodies (<[h := f b]> (bodies w)) w)
    | None => (Throw TypeError, w)
    end.

Definition askCollider {A : Type} (c : nat) (f : Collider -> A) : M World A :=
  fun w =>
    match colliders w !! c with
    | Some co => (Done (f co), w)
    | None => (Throw TypeError, w)
    end.

Definition updCollider (c : nat) (f : Collider -> Collider) : M World unit :=
  fun w =>
    match colliders w !! c with
    | Some co => (Done tt, set_colliders (<[c := f co]> (colliders w)) w)
    | None => (Throw TypeError, w)
    end.

Definition wake (wakeUp : bool) (b : RigidBody) : RigidBody :=
  mkRigidBody (rb_desc b) (rb_translation b) (rb_rotation b) (rb_linvel b)
    (rb_angvel b) (rb_force b) (rb_gravityScale b) (rb_lockTranslations b)
    (rb_lockRotations b) (if wakeUp then false else rb_sleeping b) (rb_colliders b).

Definition with_translation (t : Vec2) (b : RigidBody) : RigidBody :=
  mkRigidBody (rb_desc b) t (rb_rotation b) (rb_linvel b)
    (rb_angvel b) (rb_force b) (rb_gravityScale b) (rb_lockTranslations b)
    (rb_lockRotations b) (rb_sleeping b) (rb_colliders b).

Definition with_rotation (a : Q) (b : RigidBody) : RigidBody :=
  mkRigidBody (rb_desc b) (rb_translation b) a (rb_linvel b)
    (rb_angvel b) (rb_force b) (rb_gravityScale b) (rb_lockTranslations b)
    (rb_lockRotations b) (rb_sleeping b) (rb_colliders b).

Definition with_linvel (v : Vec2) (b : RigidBody) : RigidBody :=
  mkRigidBody (rb_desc b) (rb_translation b) (rb_rotation b) v
    (rb_angvel b) (rb_force b) (rb_gravityScale b) (rb_lockTranslations b)
    (rb_lockRotations b) (rb_sleeping b) (rb_colliders b).

Definition with_angvel (a : Q) (b : RigidBody) : RigidBody :=
  mkRigidBody (rb_desc b) (rb_translation b) (rb_rotation b) (rb_linvel b)
    a (rb_force b) (rb_gravityScale b) (rb_lockTranslations b)
    (rb_lockRotations b) (rb_sleeping b) (rb_colliders b).

Definition with_force (f : Vec2) (b : RigidBody) : RigidBody :=
  mkRigidBody (rb_desc b) (rb_translation b) (rb_rotation b) (rb_linvel b)
    (rb_angvel b) f (rb_gravityScale b) (rb_lockTranslations b)
    (rb_lockRotations b) (rb_sleeping b) (rb_colliders b).

Definition with_gravityScale (g : Q) (b : RigidBody) : RigidBody :=
  mkRigidBody (rb_desc b) (rb_translation b) (rb_rotation b) (rb_linvel b)
    (rb_angvel b) (rb_force b) g (rb_lockTranslations b)
    (rb_lockRotations b) (rb_sleeping b) (rb_colliders b).

Definition with_lockTranslations (l : bool) (b : RigidBody) : RigidBody :=
  mkRigidBody (rb_desc b) (rb_translation b) (rb_rotation b) (rb_linvel b)
    (rb_angvel b) (rb_force b) (rb_gravityScale b) l
    (rb_lockRotations b) (rb_sleeping b) (rb_colliders b).

Definition with_lockRotations (l : bool) (b : RigidBody) : RigidBody :=
  mkRigidBody (rb_desc b) (rb_translation b) (rb_rotation b) (rb_linvel b)
    (rb_angvel b) (rb_force b) (rb_gravityScale b) (rb_lockTranslations b)
    l (rb_sleeping b) (rb_colliders b).

Definition with_colliders (cs : list nat) (b : RigidBody) : RigidBody :=
  mkRigidBody (rb_desc b) (rb_translation b) (rb_rotation b) (rb_linvel b)
    (rb_angvel b) (rb_force b) (rb_gravityScale b) (rb_lockTranslations b)
    (rb_lockRotations b) (rb_sleeping b) cs.

Definition with_massProps (m : MassProps) (c : Collider) : Collider :=
  mkCollider (co_shape c) (co_parent c) m (co_restitution c).

Definition with_restitution (r : Q) (c : Collider) : Collider :=
  mkCollider (co_shape c) (co_parent c) (co_massProps c) r.

(** Methods of a rigid body ([rbody.m(...)]), by handle. *)
Definition translation (h : nat) : M World Vec2 := askBody h rb_translation.
Definition rotation (R : Engine) (h : nat) : M World Q :=
  askBody h (fun b => eng_angle R (rb_rotation b)).
Definition linvel (h : nat) : M World Vec2 := askBody h rb_linvel.
Definition gravityScaleOf (h : nat) : M World Q := askBody h rb_gravityScale.

Definition setTranslation (h : nat) (t : Vec2) (wakeUp : bool) : M World unit :=
  updBody h (fun b => wake wakeUp (with_translation t b)).
Definition setRotation (h : nat) (a : Q) (wakeUp : bool) : M World unit :=
  updBody h (fun b => wake wakeUp (with_rotation a b)).
Definition setLinvel (h : nat) (v : Vec2) (wakeUp : bool) : M World unit :=
  updBody h (fun b => wake wakeUp (with_linvel v b)).
Definition setGravityScale (h : nat) (g : Q) (wakeUp : bool) : M World unit :=
  updBody h (fun b => wake wakeUp (with_gravityScale g b)).
Definition lockTranslations (h : nat) (locked wakeUp : bool) : M World unit :=
  updBody h (fun b => wake wakeUp (with_lockTranslations locked b)).
Definition lockRotations (h : nat) (locked wakeUp : bool) : M World unit :=
  updBody h (fun b => wake wakeUp (with_lockRotations locked b)).

(** [rbody.collider(i)] *)
Definition colliderAt (h : nat) (i : nat) : M World nat :=
  let* cs := askBody h rb_colliders in
  match nth_error cs i with
  | Some c => ret c
  | None => throw TypeError
  end.

(** [world.createCollider(desc, parent)]: density 1 and restitution 0 are the
    engine's defaults. *)
Definition createCollider (desc : ColliderDesc) (parent : nat) : M World nat :=
  fun w =>
    match bodies w !! parent with
    | None => (Throw TypeError, w)
    | Some b =>
        let c := next_handle w in
        let w1 := set_colliders (<[c := mkCollider desc parent (Density 1) 0]> (colliders w)) w in
        let w2 := set_bodies (<[parent := with_colliders (rb_colliders b ++ c :: nil) b]> (bodies w1)) w1 in
        (Done c, bump_handle w2)
    end.

Definition setMass (c : nat) (m : Q) : M World unit :=
  updCollider c (with_massProps (Mass m)).
Definition restitution (c : nat) : M World Q := askCollider c co_restitution.
Definition setRestitution (c : nat) (r : Q) : M World unit :=
  updCollider c (with_restitution r).

Definition detach (c : nat) (b : RigidBody) : RigidBody :=
  with_colliders (List.filter (fun c' => negb (Nat.eqb c' c)) (rb_colliders b)) b.

(** [world.removeCollider(collider, wakeUp)] *)
Definition removeCollider (c : nat) (wakeUp : bool) (w : World) : World :=
  match colliders w !! c with
  | None => w
  | Some co =>
      set_colliders (delete c (colliders w))
        (set_bodies (alter (fun b => wake wakeUp (detach c b)) (co_parent co) (bodies w)) w)
  end.

(** [world.removeRigidBody(body)]: the body goes, and with it the colliders
    attached to it. *)
Definition removeRigidBody (h : nat) (w : World) : World :=
  match bodies w !! h with
  | None => w
  | Some b =>
      let js := filter (fun j => fst (snd j) <> h /\ snd (snd j) <> h) (joints w) in
      mkWorld (gravity w) (delete h (bodies w))
        (fold_right (fun c cs => delete c cs) (colliders w) (rb_colliders b))
        js (next_handle w)
  end.

(** ** The body component: [rapierBody] *)

Record RapierBodyOptions : Type := mkRapierBodyOptions {
  opt_isStatic : option bool;
  opt_kinematic : option bool;
  opt_mass : option Q;
  opt_jumpPower : option Q;
  opt_bounciness : option Q;
  opt_gravityScale : option Q;
}.

(** [opts?.field]: undefined when [opts] itself is. *)
Definition optional {A : Type} (opts : option RapierBodyOptions)
    (field : RapierBodyOptions -> option A) : option A :=
  match opts with
  | Some o => field o
  | None => None
  end.

(** Truthiness of an optional boolean. *)
Definition truthy (b : option bool) : bool :=
  match b with
  | Some true => true
  | _ => false
  end.

(** [a ?? d] *)
Definition orElse {A : Type} (a : option A) (d : A) : A :=
  match a with
  | Some v => v
  | None => d
  end.

Infix "??" := orElse (at level 45, left associativity).

(** One "rapier-body" component together with the object it sits on ([this]):
    the closure variables [rbody] and [collider], and the [jumpPower]
    property. *)
Record BodyComp : Type := mkBodyComp {
  this : GameObj;
  rbody : option nat;
  collider : option nat;
  jumpPower : Q;
}.

(** The state a method of the component runs in: the component and the
    module-level [world]. *)
Record St : Type := mkSt { comp : BodyComp; world : World }.

Definition set_this (o : GameObj) (s : St) : St :=
  mkSt (mkBodyComp o (rbody (comp s)) (collider (comp s)) (jumpPower (comp s))) (world s).

Definition set_rbody (h : option nat) (s : St) : St :=
  mkSt (mkBodyComp (this (comp s)) h (collider (comp s)) (jumpPower (comp s))) (world s).

Definition set_collider (c : option nat) (s : St) : St :=
  mkSt (mkBodyComp (this (comp s)) (rbody (comp s)) c (jumpPower (comp s))) (world s).

Definition set_world (w : World) (s : St) : St := mkSt (comp s) w.

(** Runs a call on the world inside a method of the component. *)
Definition onWorld {A : Type} (m : M World A) : M St A :=
  fun s => let '(r, w) := m (world s) in (r, set_world w s).

(** What [velocity] hands out: a [Proxy] around a copy of the velocity
    ([target]) that remembers the body ([_body]). *)
Record VelocityProxy : Type := mkVelocityProxy {
  target : Vec2;
  _body : nat;
}.

(** The arguments [k.vec2] accepts. *)
Inductive Vec2Args : Type :=
| ArgsXY (x y : Q)
| ArgsVec (v : Vec2)
| ArgsNum (n : Q)
| ArgsNone.

Definition k_vec2 (args : Vec2Args) : Vec2 :=
  match args with
  | ArgsXY x y => vec2 x y
  | ArgsVec v => vec2 (vx v) (vy v)
  | ArgsNum n => vec2 n n
  | ArgsNone => vec2 0 0
  end.

(** [obj.renderArea().bbox()], called without a guard: the method comes with
    the shape component, so on an object that has none the call is a
    [TypeError]. *)
Definition renderArea {S : Type} (obj : GameObj) : M S Rect :=
  if isVisibleOf obj then ret (renderArea_bbox obj) else throw TypeError.

(** The ray of [isGrounded]: from the body's translation, with direction
    [k.vec2(width / 2, height + 1)]. *)
Definition groundRay (t : Vec2) (bbox : Rect) : Ray :=
  mkRay t (vec2 (rect_width bbox / 2) (rect_height bbox + 1)).

Definition maxToi : Q := 1.

Section RapierBody.

Context (R : Engine) (k : KaboomCtx) (opts : option RapierBodyOptions).

(** [rapierBody(opts)]: the component as constructed, on its object. *)
Definition rapierBody (obj : GameObj) : BodyComp :=
  mkBodyComp obj None None (optional opts opt_jumpPower ?? 100).

(** The body after a successful [ensureBody]. *)
Definition the_rbody : M St nat :=
  let* r := gets (fun s => rbody (comp s)) in
  match r with
  | Some h => ret h
  | None => throw TypeError
  end.

Definition ensureBody : M St unit :=
  let* rbody_ := gets (fun s => rbody (comp s)) in
  match rbody_ with
  | Some _ => ret tt
  | None =>
      let* obj := gets (fun s => this (comp s)) in
      let isVisible := isVisibleOf obj in
      (if is_rotate obj then ret tt else modify (set_this (use_rotate 0 obj))) ;;
      let desc :=
        if truthy (optional opts opt_isStatic) then fixed
        else if truthy (optional opts opt_kinematic) then kinematicVelocityBased
        else dynamic in
      let* h := onWorld (createRigidBody desc) in
      modify (set_rbody (Some h)) ;;
      let* obj := gets (fun s => this (comp s)) in
      onWorld (setRotation h (angle obj) true) ;;
      onWorld (setGravityScale h (optional opts opt_gravityScale ?? 1) true) ;;
      onWorld (setTranslation h (translateAnchorToCenter obj isVisible) true) ;;
      if isVisible then
        (if is_polygon obj then
           let pts := convertPolygonPts (pts obj) in
           match eng_convexHull R pts with
           | None => throw (Error "polygon is not convex")
           | Some hull =>
               let* c := onWorld (createCollider hull h) in
               modify (set_collider (Some c))
           end
         else if is_rect obj then
           let* c := onWorld (createCollider (cuboid (width obj / 2) (height obj / 2)) h) in
           modify (set_collider (Some c))
         else if is_circle obj then
           let* c := onWorld (createCollider (ball (radius obj)) h) in
           modify (set_collider (Some c))
         else throw (Error "unreachable")) ;;
        let* c := gets (fun s => collider (comp s)) in
        match c with
        | Some c => onWorld (setMass c (optional opts opt_mass ?? 1))
        | None => throw TypeError
        end
      else ret tt
  end.

Definition get_bounciness : M St Q :=
  ensureBody ;;
  let* h := the_rbody in
  let* c := onWorld (colliderAt h 0) in
  onWorld (restitution c).

Definition set_bounciness (bounciness : Q) : M St unit :=
  ensureBody ;;
  let* h := the_rbody in
  let* c := onWorld (colliderAt h 0) in
  onWorld (setRestitution c bounciness).

Definition get_mass : M St Q :=
  ensureBody ;;
  let* h := the_rbody in
  onWorld (askBody h (fun _ => tt)) ;;
  gets (fun s => eng_mass R (world s) h).

Definition set_mass (mass : Q) : M St unit :=
  ensureBody ;;
  let* h := the_rbody in
  let* c := onWorld (colliderAt h 0) in
  onWorld (setMass c mass).

Definition get_gravityScale : M St Q :=
  ensureBody ;;
  let* h := the_rbody in
  onWorld (gravityScaleOf h).

Definition set_gravityScale (gravityScale : Q) : M St unit :=
  ensureBody ;;
  let* h := the_rbody in
  onWorld (setGravityScale h gravityScale true).

Definition get_velocity : M St VelocityProxy :=
  ensureBody ;;
  let* _body := the_rbody in
  let* v := onWorld (linvel _body) in
  ret (mkVelocityProxy (vec2 (vx v) (vy v)) _body).

Definition set_velocity (vel : Vec2) : M St unit :=
  ensureBody ;;
  let* h := the_rbody in
  onWorld (setLinvel h vel true).

Definition jump (power : option Q) : M St unit :=
  ensureBody ;;
  let* h := the_rbody in
  let* jp := gets (fun s => jumpPower (comp s)) in
  let realPower := power ?? jp in
  onWorld (updBody h (fun b =>
    wake true (with_linvel (eng_applyImpulse R (vec2 0 (- realPower)) b) b))).

Definition isGrounded : M St bool :=
  ensureBody ;;
  let* h := the_rbody in
  let* obj := gets (fun s => this (comp s)) in
  let* bbox := renderArea obj in
  let* t := onWorld (translation h) in
  let ray := groundRay t bbox in
  let* w := gets world in
  let hit := eng_castRay R w ray maxToi true None None None (Some h) in
  ret (match hit with Some _ => true | None => false end).

Definition isFalling : M St bool :=
  let* g := isGrounded in
  ret (negb g).

Definition getRigidBody : M St nat :=
  ensureBody ;;
  the_rbody.

Definition lockPosition (locked : option bool) : M St unit :=
  ensureBody ;;
  let* h := the_rbody in
  onWorld (lockTranslations h (locked ?? true) true).

Definition lockRotation (locked : option bool) : M St unit :=
  ensureBody ;;
  let* h := the_rbody in
  onWorld (lockRotations h (locked ?? true) true).

Definition addForce (vec : Vec2) : M St unit :=
  ensureBody ;;
  let* h := the_rbody in
  onWorld (updBody h (fun b =>
    wake true (with_force (eng_addForce R (vec2 (vx vec) (vy vec)) b) b))).

Definition applyImpulse (vec : Vec2) : M St unit :=
  ensureBody ;;
  let* h := the_rbody in
  onWorld (updBody h (fun b =>
    wake true (with_linvel (eng_applyImpulse R (vec2 (vx vec) (vy vec)) b) b))).

Definition applyTorqueImpulse (impulse : Q) : M St unit :=
  ensureBody ;;
  let* h := the_rbody in
  onWorld (updBody h (fun b =>
    wake true (with_angvel (eng_applyTorqueImpulse R impulse b) b))).

Definition translate (args : Vec2Args) : M St unit :=
  ensureBody ;;
  let* h := the_rbody in
  onWorld (setTranslation h (k_vec2 args) true).

Definition translateX (x : Q) : M St unit :=
  ensureBody ;;
  let* h := the_rbody in
  let* t := onWorld (translation h) in
  onWorld (setTranslation h (vec2 x (vy t)) true).

Definition translateY (y : Q) : M St unit :=
  ensureBody ;;
  let* h := the_rbody in
  let* t := onWorld (translation h) in
  onWorld (setTranslation h (vec2 (vx t) y) true).

Definition update : M St unit :=
  let* obj := gets (fun s => this (comp s)) in
  let isVisible := isVisibleOf obj in
  ensureBody ;;
  let* h := the_rbody in
  let* position := onWorld (translation h) in
  let* obj := gets (fun s => this (comp s)) in
  let translated := translateCenterToAnchor position obj isVisible in
  modify (fun s => set_this (set_pos (vec2 (vx translated) (vy (pos (this (comp s))))) (this (comp s))) s) ;;
  modify (fun s => set_this (set_pos (vec2 (vx (pos (this (comp s)))) (vy translated)) (this (comp s))) s) ;;
  let* a := onWorld (rotation R h) in
  modify (fun s => set_this (set_angle (k_rad2deg k a) (this (comp s))) s).

Definition destroy : M St unit :=
  let* c := gets (fun s => collider (comp s)) in
  (match c with
   | Some c => modify (fun s => set_world (removeCollider c false (world s)) s)
   | None => ret tt
   end) ;;
  let* r := gets (fun s => rbody (comp s)) in
  match r with
  | Some h => modify (fun s => set_world (removeRigidBody h (world s)) s)
  | None => ret tt
  end.

(** [inspect]: the three values the text is built from (mass, gravity scale
    and velocity); the formatting of the text itself is left out. *)
Definition inspect : M St (Q * Q * Vec2) :=
  let* h := getRigidBody in
  let* vel := onWorld (linvel h) in
  let* m := get_mass in
  let* g := get_gravityScale in
  ret (m, g, vel).

(** The [set] trap of the velocity proxy: [proxy[p] = newValue]. *)
Definition proxy_set (pr : VelocityProxy) (p : string) (newValue : Q)
    : M St VelocityProxy :=
  (if (String.eqb p "x" || String.eqb p "y")%bool then
     let* curr := onWorld (linvel (_body pr)) in
     let curr :=
       if String.eqb p "x" then vec2 newValue (vy curr) else vec2 (vx curr) newValue in
     onWorld (setLinvel (_body pr) curr true)
   else ret tt) ;;
  let target' :=
    if String.eqb p "x" then vec2 newValue (vy (target pr))
    else if String.eqb p "y" then vec2 (vx (target pr)) newValue
    else target pr in
  ret (mkVelocityProxy target' (_body pr)).

End RapierBody.

(** ** The joint component: [rapierJoint] *)

(** The [joint] field of the options, as a JavaScript object: the tag and the
    fields the five kinds may carry, each possibly absent. *)
Record RapierJointDataOptions : Type := mkRapierJointDataOptions {
  jo_type : string;
  jo_frame1 : option Q;
  jo_frame2 : option Q;
  jo_anchor1 : option Vec2;
  jo_anchor2 : option Vec2;
  jo_axis : option Vec2;
  jo_length : option Q;
  jo_restLength : option Q;
  jo_stiffness : option Q;
  jo_damping : option Q;
}.

(** The parents are game objects carrying a body component, named here by
    their place in the scene. *)
Record RapierJointOptions : Type := mkRapierJointOptions {
  joint : RapierJointDataOptions;
  parent1 : nat;
  parent2 : nat;
}.

(** A game object with its body component and the options the component was
    made with. *)
Record Entity : Type := mkEntity {
  ent_opts : option RapierBodyOptions;
  ent_comp : BodyComp;
}.

Record Scene : Type := mkScene {
  sc_objs : gmap nat Entity;
  sc_world : World;
}.

Definition ZERO : Vec2 := vec2 0 0.

(** The five joint kinds the options type admits. *)
Definition jointKinds : list string :=
  "fixed" :: "prismatic" :: "revolute" :: "rope" :: "spring" :: nil.

(** The first argument of [world.createImpulseJoint]: the chain of
    conditionals on [opts.joint.type], which ends in [null]. *)
Definition jointParams (j : RapierJointDataOptions) : option JointData :=
  if String.eqb (jo_type j) "fixed" then
    Some (JFixed (jo_anchor1 j ?? ZERO) (jo_frame1 j ?? 0)
                 (jo_anchor2 j ?? ZERO) (jo_frame2 j ?? 0))
  else if String.eqb (jo_type j) "prismatic" then
    Some (JPrismatic (jo_anchor1 j ?? ZERO) (jo_anchor2 j ?? ZERO) (jo_axis j))
  else if String.eqb (jo_type j) "revolute" then
    Some (JRevolute (jo_anchor1 j ?? ZERO) (jo_anchor2 j ?? ZERO))
  else if String.eqb (jo_type j) "rope" then
    Some (JRope (jo_length j) (jo_anchor1 j ?? ZERO) (jo_anchor2 j ?? ZERO))
  else if String.eqb (jo_type j) "spring" then
    Some (JSpring (jo_restLength j) (jo_stiffness j) (jo_damping j)
                  (jo_anchor1 j ?? ZERO) (jo_anchor2 j ?? ZERO))
  else None.

(** [world.createImpulseJoint(params, parent1, parent2, wakeUp)]: the engine
    starts by reading the description, so a [null] one is a [TypeError]
    before anything is added to the joint set. *)
Definition createImpulseJoint (R : Engine) (params : option JointData)
    (parent1 parent2 : nat) (wakeUp : bool) : M World nat :=
  match params with
  | Some data => eng_createImpulseJoint R data parent1 parent2 wakeUp
  | None => throw TypeError
  end.

Section RapierJoint.

Context (R : Engine) (k : KaboomCtx).

(** A method call on the body component of the object [id]. *)
Definition onObj {A : Type} (id : nat)
    (m : option RapierBodyOptions -> M St A) : M Scene A :=
  fun sc =>
    match sc_objs sc !! id with
    | None => (Throw TypeError, sc)
    | Some e =>
        let '(r, s) := m (ent_opts e) (mkSt (ent_comp e) (sc_world sc)) in
        (r, mkScene (<[id := mkEntity (ent_opts e) (comp s)]> (sc_objs sc)) (world s))
    end.

Definition onSceneWorld {A : Type} (m : M World A) : M Scene A :=
  fun sc => let '(r, w) := m (sc_world sc) in (r, mkScene (sc_objs sc) w).

(** [rapierJoint(opts)]; the result is the [joint] its [destroy] closes
    over. *)
Definition rapierJoint (opts : RapierJointOptions) : M Scene nat :=
  let params := jointParams (joint opts) in
  let* b1 := onObj (parent1 opts) (fun o => getRigidBody R o) in
  let* b2 := onObj (parent2 opts) (fun o => getRigidBody R o) in
  onSceneWorld (createImpulseJoint R params b1 b2 true).

Definition joint_destroy (j : nat) : M Scene unit :=
  onSceneWorld (modify (eng_removeImpulseJoint R j true)).

End RapierJoint.

(** ** The plugin: [load] and the fixed-step loop of [rapierPlugin] *)

(** [load()]: [world = new R.World(new R.Vector2(0, 20))]. *)
Definition load : option World :=
  Some (mkWorld (vec2 0 20) ∅ ∅ ∅ 0).

Record RapierPluginOptions : Type := mkRapierPluginOptions {
  physicsStep : option Q;
}.

(** [opts?.physicsStep ?? 5] *)
Definition PHYSICS_STEP (opts : option RapierPluginOptions) : Q :=
  match opts with
  | Some o => physicsStep o ?? 5
  | None => 5
  end.

(** What a frame reads from the host: [k.dt()] and [k.getGravity()]. *)
Record Frame : Type := mkFrame { dt : Q; getGravity : Q }.

(** The closure variables of the plugin that the loop advances.  The two
    timing variables, which only feed the inspector text, are left out. *)
Record Stepper : Type := mkStepper { acc : Q; updateCount : Z }.

Definition initialStepper : Stepper := mkStepper 0 0.

Section RapierPlugin.

Context (R : Engine) (opts : option RapierPluginOptions).

(** [while (acc >= PHYSICS_STEP) { world.step(); acc -= PHYSICS_STEP;
    updateCount++; }], with a bound on the number of iterations: [None]
    when the bound is used up. *)
Fixpoint stepLoop (fuel : nat) (w : World) (s : Stepper) : option (World * Stepper) :=
  if Qle_bool (PHYSICS_STEP opts) (acc s) then
    match fuel with
    | O => None
    | S fuel' =>
        stepLoop fuel' (eng_step R w)
                 (mkStepper (acc s - PHYSICS_STEP opts) (updateCount s + 1)%Z)
    end
  else Some (w, s).

(** The callback given to [k.onUpdate]. *)
Definition onUpdate (fuel : nat) (f : Frame) (world : option World) (s : Stepper)
    : option (option World * Stepper) :=
  match world with
  | None => Some (None, s)
  | Some w =>
      let s1 := mkStepper (acc s + dt f * 1000) (updateCount s) in
      let w1 := set_gravity (vec2 (vx (gravity w)) (getGravity f)) w in
      match stepLoop fuel w1 s1 with
      | Some (w2, s2) => Some (Some w2, s2)
      | None => None
      end
  end.

(** A run of frames, each with the same bound. *)
Fixpoint onUpdates (fuel : nat) (fs : list Frame) (world : option World) (s : Stepper)
    : option (option World * Stepper) :=
  match fs with
  | nil => Some (world, s)
  | f :: fs' =>
      match onUpdate fuel f world s with
      | Some (world', s') => onUpdates fuel fs' world' s'
      | None => None
      end
  end.

End RapierPlugin.

(** The time the host reports over a run of frames, in milliseconds. *)
Fixpoint elapsedMillis (fs : list Frame) : Q :=
  match fs with
  | nil => 0
  | f :: fs' => dt f * 1000 + elapsedMillis fs'
  end.

(** The time the world has been stepped through: one interval per step. *)
Definition simulatedMillis (opts : option RapierPluginOptions) (s : Stepper) : Q :=
  inject_Z (updateCount s) * PHYSICS_STEP opts.

(** ** Traces of calls on one body component *)

(** The public members of the component, with their arguments; [OpProxySet]
    is an assignment [v[p] = newValue] to a velocity proxy handed out
    earlier. *)
Inductive Op : Type :=
| OpGetBounciness
| OpSetBounciness (bounciness : Q)
| OpGetMass
| OpSetMass (mass : Q)
| OpGetGravityScale
| OpSetGravityScale (gravityScale : Q)
| OpGetVelocity
| OpSetVelocity (vel : Vec2)
| OpProxySet (pr : VelocityProxy) (p : string) (newValue : Q)
| OpJump (power : option Q)
| OpIsGrounded
| OpIsFalling
| OpGetRigidBody
| OpLockPosition (locked : option bool)
| OpLockRotation (locked : option bool)
| OpAddForce (vec : Vec2)
| OpApplyImpulse (vec : Vec2)
| OpApplyTorqueImpulse (impulse : Q)
| OpTranslate (args : Vec2Args)
| OpTranslateX (x : Q)
| OpTranslateY (y : Q)
| OpUpdate
| OpInspect
| OpDestroy.

(** What happens to a component over time: a member is called, or the host
    (or the game) rewrites the visual object: position, shape, anchor, tags. *)
Inductive Event : Type :=
| Call (op : Op)
| Mutate (obj : GameObj).

Definition is_destroy (e : Event) : bool :=
  match e with
  | Call OpDestroy => true
  | _ => false
  end.

Definition discard {S A : Type} (m : M S A) : M S unit := m ;; ret tt.

Section Traces.

Context (R : Engine) (k : KaboomCtx) (opts : option RapierBodyOptions).

Definition exec (op : Op) : M St unit :=
  match op with
  | OpGetBounciness => discard (get_bounciness R opts)
  | OpSetBounciness b => set_bounciness R opts b
  | OpGetMass => discard (get_mass R opts)
  | OpSetMass m => set_mass R opts m
  | OpGetGravityScale => discard (get_gravityScale R opts)
  | OpSetGravityScale g => set_gravityScale R opts g
  | OpGetVelocity => discard (get_velocity R opts)
  | OpSetVelocity v => set_velocity R opts v
  | OpProxySet pr p v => discard (proxy_set pr p v)
  | OpJump power => jump R opts power
  | OpIsGrounded => discard (isGrounded R opts)
  | OpIsFalling => discard (isFalling R opts)
  | OpGetRigidBody => discard (getRigidBody R opts)
  | OpLockPosition l => lockPosition R opts l
  | OpLockRotation l => lockRotation R opts l
  | OpAddForce v => addForce R opts v
  | OpApplyImpulse v => applyImpulse R opts v
  | OpApplyTorqueImpulse i => applyTorqueImpulse R opts i
  | OpTranslate args => translate R opts args
  | OpTranslateX x => translateX R opts x
  | OpTranslateY y => translateY R opts y
  | OpUpdate => update R k opts
  | OpInspect => discard (inspect R opts)
  | OpDestroy => destroy
  end.

(** One event; a call that throws leaves the state as it was at the throw. *)
Definition event (e : Event) (s : St) : St :=
  match e with
  | Call op => snd (exec op s)
  | Mutate obj => set_this obj s
  end.

Definition events (es : list Event) (s : St) : St :=
  fold_left (fun s e => event e s) es s.

End Traces.

(** The body component holds a body of the world. *)
Definition created (s : St) (h : nat) : Prop :=
  rbody (comp s) = Some h /\ is_Some (bodies (world s) !! h).

(** The shape of every collider of a world, by handle. *)
Definition shapes (w : World) : gmap nat ColliderDesc := co_shape <$> colliders w.

(** ** What [ensureBody] builds, written out *)

Definition bodyDescOf (opts : option RapierBodyOptions) : RigidBodyDesc :=
  if truthy (optional opts opt_isStatic) then fixed
  else if truthy (optional opts opt_kinematic) then kinematicVelocityBased
  else dynamic.

(** The object once [ensureBody] has made sure it rotates. *)
Definition rotated (obj : GameObj) : GameObj :=
  if is_rotate obj then obj else use_rotate 0 obj.

(** The new body after the three setters of [ensureBody]. *)
Definition initialBody (opts : option RapierBodyOptions) (obj : GameObj)
    (isVisible : bool) : RigidBody :=
  wake true (with_translation (translateAnchorToCenter obj isVisible)
    (wake true (with_gravityScale (optional opts opt_gravityScale ?? 1)
      (wake true (with_rotation (angle obj) (newRigidBody (bodyDescOf opts))))))).

(** The collider description [ensureBody] arrives at, if any. *)
Definition shapeOf (R : Engine) (obj : GameObj) : Outcome (option ColliderDesc) :=
  if is_polygon obj then
    match eng_convexHull R (convertPolygonPts (pts obj)) with
    | Some hull => Done (Some hull)
    | None => Throw (Error "polygon is not convex")
    end
  else if is_rect obj then Done (Some (cuboid (width obj / 2) (height obj / 2)))
  else if is_circle obj then Done (Some (ball (radius obj)))
  else Done None.

(** The state with the body created and no collider (yet). *)
Definition bodyOnly (opts : option RapierBodyOptions) (s : St) : St :=
  let w := world s in
  let n := next_handle w in
  let obj := rotated (this (comp s)) in
  mkSt (mkBodyComp obj (Some n) (collider (comp s)) (jumpPower (comp s)))
       (mkWorld (gravity w)
          (<[n := initialBody opts obj (isVisibleOf obj)]> (bodies w))
          (colliders w) (joints w) (S n)).

(** The state with the body and its collider created. *)
Definition bodyAndCollider (opts : option RapierBodyOptions) (d : ColliderDesc)
    (s : St) : St :=
  let w := world s in
  let n := next_handle w in
  let obj := rotated (this (comp s)) in
  mkSt (mkBodyComp obj (Some n) (Some (S n)) (jumpPower (comp s)))
       (mkWorld (gravity w)
          (<[n := with_colliders (S n :: nil) (initialBody opts obj (isVisibleOf obj))]>
             (bodies w))
          (<[S n := mkCollider d n (Mass (optional opts opt_mass ?? 1)) 0]> (colliders w))
          (joints w) (S (S n))).

(** ** The ray of the specification *)

(** The specification's [isGrounded] ray, for comparison with [groundRay]:
    straight down from the translation, of length [height / 2 + 1]. *)
Definition spec_groundRay (t : Vec2) (bbox : Rect) : Ray :=
  mkRay t (vec2 0 (rect_height bbox / 2 + 1)).

(** ** A minimal engine and a few objects to run the definitions on *)

(** The convex hull of a list of points, by the monotone chain: the points
    in lexicographic order, then the lower and the upper chain, each kept
    free of right turns and of points in line. *)
Definition cross (o a b : Vec2) : Q :=
  (vx a - vx o) * (vy b - vy o) - (vy a - vy o) * (vx b - vx o).

Definition lexle (a b : Vec2) : bool :=
  (negb (Qle_bool (vx b) (vx a)) || (Qeq_bool (vx a) (vx b) && Qle_bool (vy a) (vy b)))%bool.

Fixpoint insertPoint (p : Vec2) (l : list Vec2) : list Vec2 :=
  match l with
  | nil => p :: nil
  | q :: r => if lexle p q then p :: l else q :: insertPoint p r
  end.

Definition sortPoints (l : list Vec2) : list Vec2 := fold_right insertPoint nil l.

(** The chain, last point first, without the points that [p] leaves inside. *)
Fixpoint popWhile (p : Vec2) (chain : list Vec2) : list Vec2 :=
  match chain with
  | b :: ((a :: _) as rest) =>
      if Qle_bool (cross a b p) 0 then popWhile p rest else chain
  | _ => chain
  end.

Definition halfHull (l : list Vec2) : list Vec2 :=
  rev (fold_left (fun chain p => p :: popWhile p chain) l nil).

Definition hullOf (l : list Vec2) : list Vec2 :=
  let sorted := sortPoints l in
  removelast (halfHull sorted) ++ removelast (halfHull (rev sorted)).

Fixpoint toPoints (l : list Q) : list Vec2 :=
  match l with
  | x :: y :: r => vec2 x y :: toPoints r
  | _ => nil
  end.

(** No solver: a hull is the convex hull of the points when it has at least
    three corners, no ray hits, a step changes nothing, every body weighs 1,
    the joint set records the two bodies of each joint it is asked for, and
    an angle is reported as it was set. *)
Definition plainEngine : Engine :=
  mkEngine
    (fun ps =>
       let hull := hullOf (toPoints ps) in
       if (Nat.ltb (List.length hull) 3) then None
       else Some (convexPolygon (convertPolygonPts hull)))
    (fun _ _ _ _ _ _ _ _ => None)
    (fun w => w)
    (fun _ _ => 1)
    (fun v b => vec2 (vx (rb_linvel b) + vx v) (vy (rb_linvel b) + vy v))
    (fun v b => vec2 (vx (rb_force b) + vx v) (vy (rb_force b) + vy v))
    (fun t b => rb_angvel b + t)
    (fun _ b1 b2 _ w =>
       (Done (next_handle w),
        mkWorld (gravity w) (bodies w) (colliders w)
                (<[next_handle w := (b1, b2)]> (joints w)) (S (next_handle w))))
    (fun j _ w =>
       mkWorld (gravity w) (bodies w) (colliders w) (delete j (joints w)) (next_handle w))
    (fun a => a).

Definition plainCtx : KaboomCtx := mkKaboomCtx (fun r => r * 180 * (113 # 355)).

Definition emptyWorld : World := mkWorld (vec2 0 20) ∅ ∅ ∅ 0.

(** [k.rect(25, 25), k.pos(100, 0), k.anchor("center")], the player of the demo. *)
Definition player : GameObj :=
  mkGameObj (vec2 100 0) (Some (AnchorName center)) 0 false true false false
            (mkRect (vec2 0 0) 25 25) nil 25 25 0.

(** [k.rect(10, 10), k.pos(0, 0)] *)
Definition box : GameObj :=
  mkGameObj (vec2 0 0) None 0 false true false false
            (mkRect (vec2 0 0) 10 10) nil 10 10 0.

(** [k.circle(20), k.pos(50, 100), k.anchor("center")] *)
Definition disc : GameObj :=
  mkGameObj (vec2 50 100) (Some (AnchorName center)) 0 false false true false
            (mkRect (vec2 (-20) (-20)) 40 40) nil 0 0 20.

(** [k.polygon([vec2(0,0), vec2(10,0), vec2(10,10), vec2(0,10)]), k.pos(0, 0)] *)
Definition square : GameObj :=
  mkGameObj (vec2 0 0) None 0 true false false false
            (mkRect (vec2 0 0) 10 10)
            (vec2 0 0 :: vec2 10 0 :: vec2 10 10 :: vec2 0 10 :: nil) 0 0 0.

(** [k.polygon([vec2(0,0), vec2(10,5), vec2(0,10), vec2(3,5)]), k.pos(0, 0)]:
    an arrow head, concave at [(3, 5)]. *)
Definition dart : GameObj :=
  mkGameObj (vec2 0 0) None 0 true false false false
            (mkRect (vec2 0 0) 10 10)
            (vec2 0 0 :: vec2 10 5 :: vec2 0 10 :: vec2 3 5 :: nil) 0 0 0.

(** [k.rect(40, 20), k.pos(10, 10), k.anchor(k.vec2(0.25, 1))] *)
Definition pinned : GameObj :=
  mkGameObj (vec2 10 10) (Some (AnchorPoint (vec2 0.25 1))) 0 false true false false
            (mkRect (vec2 0 0) 40 20) nil 40 20 0.

(** [k.pos(30, 40)] alone: the mouse anchor of the demo. *)
Definition shapeless : GameObj :=
  mkGameObj (vec2 30 40) None 0 false false false false
            (mkRect (vec2 0 0) 0 0) nil 0 0 0.

(** [k.rect(10, 200), k.pos(0, 0), k.anchor("center")]: its lower edge is at
    [y = 100]. *)
Definition pillar : GameObj :=
  mkGameObj (vec2 0 0) (Some (AnchorName center)) 0 false true false false
            (mkRect (vec2 0 0) 10 200) nil 10 200 0.

(** The plain engine over a world whose one obstacle is the ground: every
    point with [y >= floorY].  A ray hits it where it first reaches that
    height within [maxToi]. *)
Definition floorEngine (floorY : Q) : Engine :=
  mkEngine
    (eng_convexHull plainEngine)
    (fun _ ray maxToi _ _ _ _ _ =>
       let oy := vy (origin ray) in
       let dy := vy (dir ray) in
       if Qle_bool floorY oy then Some (O, 0)
       else if Qle_bool floorY (oy + maxToi * dy) then Some (O, (floorY - oy) / dy)
       else None)
    (eng_step plainEngine)
    (eng_mass plainEngine)
    (eng_applyImpulse plainEngine)
    (eng_addForce plainEngine)
    (eng_applyTorqueImpulse plainEngine)
    (eng_createImpulseJoint plainEngine)
    (eng_removeImpulseJoint plainEngine)
    (eng_angle plainEngine).

(** A fresh component on an object, in a given world. *)
Definition fresh (opts : option RapierBodyOptions) (obj : GameObj) (w : World) : St :=
  mkSt (rapierBody opts obj) w.

(** The demo's dragging scene: a circle (object 0) and the shapeless mouse
    anchor (object 1), no body created yet. *)
Definition dragScene : Scene :=
  mkScene (<[0%nat := mkEntity None (rapierBody None disc)]>
             (<[1%nat := mkEntity None (rapierBody None shapeless)]> ∅))
          emptyWorld.

Definition noJointFields (type : string) : RapierJointDataOptions :=
  mkRapierJointDataOptions type None None None None None None None None None.

(** [{ joint: { type: "hinge" }, parent1: circle, parent2: mouse }] *)
Definition hingeOptions : RapierJointOptions :=
  mkRapierJointOptions (noJointFields "hinge") 0 1.

(** Three frames of 16, 4 and 0 milliseconds. *)
Definition threeFrames : list Frame :=
  mkFrame (16 # 1000) 200 :: mkFrame (4 # 1000) 200 :: mkFrame 0 200 :: nil.
(** ** Creation at most once, as a relation between states *)

(** The colliders attached to each body of a world. *)
Definition attached (w : World) : gmap nat (list nat) := rb_colliders <$> bodies w.

(** Between [w] and [w'] no body or collider was created or removed, and no
    collider changed shape or parent body. *)
Definition same_frame (w w' : World) : Prop :=
  dom (bodies w') = dom (bodies w) /\
  shapes w' = shapes w /\
  attached w' = attached w /\
  next_handle w' = next_handle w.

(** The component still holds what it held, in the same frame. *)
Definition keeps (s s' : St) : Prop :=
  rbody (comp s') = rbody (comp s) /\
  collider (comp s') = collider (comp s) /\
  same_frame (world s) (world s').

(** From [s] to [s'] the component created a body at most once, and only if
    it had none. *)
Definition once (s s' : St) : Prop :=
  match rbody (comp s) with
  | Some _ => keeps s s'
  | None =>
      keeps s s' \/
      exists h, rbody (comp s') = Some h /\
                is_Some (bodies (world s') !! h) /\
                dom (bodies (world s')) = {[h]} ∪ dom (bodies (world s)) /\
                (next_handle (world s') <= next_handle (world s) + 2)%nat
  end.

(** From [s] to [s'] the component did not replace the body it holds, and
    the world handed out no handle unless the component had no body; then at
    most two, for the body and its collider. *)
Definition never_again (s s' : St) : Prop :=
  match rbody (comp s) with
  | Some h =>
      rbody (comp s') = Some h /\ next_handle (world s') = next_handle (world s)
  | None =>
      (rbody (comp s') = None /\ next_handle (world s') = next_handle (world s)) \/
      exists h, rbody (comp s') = Some h /\
                (next_handle (world s') <= next_handle (world s) + 2)%nat
  end.

(** Every run of a computation is related by [once]. *)
Definition at_most_once {A : Type} (m : M St A) : Prop :=
  forall s, once s (snd (m s)).

(** A call on the world that stays in the frame. *)
Definition in_frame {A : Type} (m : M World A) : Prop :=
  forall w, same_frame w (snd (m w)).

(** ** States reached by running the definitions *)

(** The player once its body exists: body 0 with the box collider 1. *)
Definition playerCreated : St :=
  snd (ensureBody plainEngine None (fresh None player emptyWorld)).

Definition playerBody : RigidBody :=
  with_colliders (1%nat :: nil) (initialBody None (rotated player) true).

(** The same after [player.velocity = vec2(3, 4)]. *)
Definition playerMoving : St :=
  snd (set_velocity plainEngine None (vec2 3 4) playerCreated).

Definition playerMovingBody : RigidBody :=
  wake true (with_linvel (vec2 3 4) playerBody).

(** The dragging scene after [circle.getRigidBody()], and after
    [mouse.getRigidBody()] as well. *)
Definition dragScene1 : Scene :=
  snd (onObj 0 (fun o => getRigidBody plainEngine o) dragScene).

Definition dragScene2 : Scene :=
  snd (onObj 1 (fun o => getRigidBody plainEngine o) dragScene1).

(** A jump, a change of the object's shape by the game, a frame update and a
    change of mass. *)
Definition someEvents : list Event :=
  Call (OpJump None) :: Mutate box :: Call OpUpdate :: Call (OpSetMass 3) :: nil.

(** ** The inspector overlay: [drawInspectText] *)

(** What the overlay needs of the host: the size of the screen and the
    measure of a text once formatted ([k.formatText(...)] with the font and
    size given: its [width] and [height]). *)
Record Screen : Type := mkScreen {
  k_width : Q;
  k_height : Q;
  k_formatText : string -> Q -> Q * Q;
}.

(** What has been drawn, in screen coordinates. *)
Inductive Drawn : Type :=
| DrawnRect (at_ : Vec2) (w h : Q)
| DrawnText (at_ : Vec2) (txt : string).

(** The graphics state: the current transform, of which the overlay uses the
    translation only, the stack of saved transforms, and what was drawn. *)
Record Gfx : Type := mkGfx {
  transform : Vec2;
  transformStack : list Vec2;
  drawn : list Drawn;
}.

Definition pushTransform (g : Gfx) : Gfx :=
  mkGfx (transform g) (transform g :: transformStack g) (drawn g).

Definition popTransform (g : Gfx) : Gfx :=
  match transformStack g with
  | t :: rest => mkGfx t rest (drawn g)
  | nil => g
  end.

Definition pushTranslate (v : Vec2) (g : Gfx) : Gfx :=
  mkGfx (vec2 (vx (transform g) + vx v) (vy (transform g) + vy v))
        (transformStack g) (drawn g).

(** [k.drawRect({ width, height, ... })]: at the origin of the transform. *)
Definition drawRect (w h : Q) (g : Gfx) : Gfx :=
  mkGfx (transform g) (transformStack g) (drawn g ++ DrawnRect (transform g) w h :: nil).

(** [k.drawFormattedText(ftxt)] for a text formatted with [pos: p]. *)
Definition drawFormattedText (p : Vec2) (txt : string) (g : Gfx) : Gfx :=
  mkGfx (transform g) (transformStack g)
        (drawn g ++ DrawnText (vec2 (vx (transform g) + vx p) (vy (transform g) + vy p)) txt
                 :: nil).

(** The width and height of the box [drawInspectText] puts behind a text. *)
Definition boxSize (k : Screen) (txt : string) : Q * Q :=
  let pad := k_vec2 (ArgsNum 8) in
  let ftxt := k_formatText k txt 16 in
  (fst ftxt + vx pad * 2, snd ftxt + vx pad * 2).

Definition drawInspectText (k : Screen) (pos : Vec2) (txt : string) (g : Gfx) : Gfx :=
  let pad := k_vec2 (ArgsNum 8) in
  let g := pushTransform g in
  let g := pushTranslate pos g in
  let ftxt := k_formatText k txt 16 in
  let bw := fst ftxt + vx pad * 2 in
  let bh := snd ftxt + vx pad * 2 in
  let g := if Qle_bool (k_width k) (vx pos + bw)
           then pushTranslate (k_vec2 (ArgsXY (- bw) 0)) g else g in
  let g := if Qle_bool (k_height k) (vy pos + bh)
           then pushTranslate (k_vec2 (ArgsXY 0 (- bh))) g else g in
  let g := drawRect bw bh g in
  let g := drawFormattedText pad txt g in
  popTransform g.

(** [inspectTextItem(k, index)] *)
Definition inspectTextItem (index : Q) : Vec2 :=
  k_vec2 (ArgsXY 8 (8 + index * 40)).

(** ** More objects and states to run the definitions on *)

(** A screen of 640 by 480 on which every character is 10 wide and a line
    is 16 high. *)
Definition smallScreen : Screen :=
  mkScreen 640 480 (fun txt _ => (inject_Z (Z.of_nat (String.length txt)) * 10, 16)).

Definition blankGfx : Gfx := mkGfx (vec2 0 0) nil nil.

(** The shapeless mouse anchor once its body exists: body 0, no collider. *)
Definition mouseCreated : St :=
  snd (ensureBody plainEngine None (fresh None shapeless emptyWorld)).

(** The player after [destroy]. *)
Definition playerDestroyed : St := snd (destroy playerCreated).

(** [{ isStatic: true, kinematic: true, gravityScale: 3 }] *)
Definition staticOptions : RapierBodyOptions :=
  mkRapierBodyOptions (Some true) (Some true) None None None (Some 3).

(** [{ mass: 5 }] *)
Definition heavyOptions : RapierBodyOptions :=
  mkRapierBodyOptions None None (Some 5) None None None.

(** [{ joint: { type: "spring", restLength: 2, stiffness: 20, damping: 2 },
      parent1: circle, parent2: mouse }], the joint of the demo. *)
Definition springOptions : RapierJointOptions :=
  mkRapierJointOptions
    (mkRapierJointDataOptions "spring" None None None None None None
       (Some 2) (Some 20) (Some 2)) 0 1.

(** [k.circle(20), k.pos(50, 100)], no anchor set. *)
Definition bubble : GameObj :=
  mkGameObj (vec2 50 100) None 0 false false true false
            (mkRect (vec2 (-20) (-20)) 40 40) nil 0 0 20.

(** A frame of 12 ms. *)
Definition slowFrame : Frame := mkFrame (12 # 1000) 200.

(** [{ physicsStep: 0 }] *)
Definition zeroStep : option RapierPluginOptions :=
  Some (mkRapierPluginOptions (Some 0)).

(** ** Members that update the body *)

(** The common form of the members that change the body: make sure it
    exists, then replace it by [f] of it. *)
Definition bodySetter (R : Engine) (opts : option RapierBodyOptions)
    (f : RigidBody -> RigidBody) : M St unit :=
  ensureBody R opts ;;
  let* h := the_rbody in
  onWorld (updBody h f).

(** * Theorems *)

(** ** Coordinate transform *)

Lemma vec_eq_refl (a : Vec2) : a =v= a.
Proof. split; reflexivity. Qed.

(** For an object that is not a polygon the two translations are inverse. *)
Lemma roundtrip_not_polygon (obj : GameObj) (isVisible : bool) :
  is_polygon obj = false ->
  translateCenterToAnchor (translateAnchorToCenter obj isVisible) obj isVisible
  =v= pos obj.
Proof.
  intros Hp. unfold translateCenterToAnchor, translateAnchorToCenter.
  rewrite Hp. destruct (anchorDelta (anchorOf obj)) as [dx dy].
  split; simpl; ring.
Qed.

(** For a polygon the translation back to the anchor is the identity. *)
Lemma toAnchor_polygon (p : Vec2) (obj : GameObj) (isVisible : bool) :
  is_polygon obj = true -> translateCenterToAnchor p obj isVisible = p.
Proof.
  intros Hp. unfold translateCenterToAnchor. rewrite Hp. now destruct p.
Qed.

(** For a polygon the translation to the centre still applies the offset of
    the anchor. *)
Lemma toCenter_polygon (obj : GameObj) :
  translateAnchorToCenter obj true =
  vec2 (vx (pos obj) + rect_width (renderArea_bbox obj) * fst (anchorDelta (anchorOf obj)))
       (vy (pos obj) + rect_height (renderArea_bbox obj) * snd (anchorDelta (anchorOf obj))).
Proof.
  unfold translateAnchorToCenter. now destruct (anchorDelta (anchorOf obj)).
Qed.

(** C1, at the input where the code departs from it: the polygon [square]
    (a 10 by 10 bounding box at position (0, 0), no anchor set) is moved to
    (5, 5) by [translateAnchorToCenter], which is therefore not the identity
    on polygons, while [translateCenterToAnchor] is; the round trip ends at
    (5, 5) and not at the position it started from. *)
Theorem C1_polygon_toCenter_offsets :
  is_polygon square = true /\
  translateAnchorToCenter square true =v= vec2 5 5 /\
  translateCenterToAnchor (translateAnchorToCenter square true) square true
    =v= vec2 5 5 /\
  ~ translateAnchorToCenter square true =v= pos square /\
  ~ translateCenterToAnchor (translateAnchorToCenter square true) square true
      =v= pos square.
Proof.
  repeat split; try reflexivity; intros [H _]; vm_compute in H; discriminate.
Qed.

(** C6: an object anchored at one of the nine names is moved by the entry of
    the table for that name times the width and the height of its bounding
    box; an object anchored at a point (ax, ay) by (0.5 - ax, 0.5 - ay) times
    them; the table has an entry for every name; and without a visible shape
    the box counts as of size (0, 0), so that the result is the position,
    whatever the anchor. *)
Theorem C6_anchor_table (obj : GameObj) :
  let p := pos obj in
  let w := rect_width (renderArea_bbox obj) in
  let h := rect_height (renderArea_bbox obj) in
  let table :=
    (bot, (0, -0.5)) :: (botleft, (0.5, -0.5)) :: (botright, (-0.5, -0.5)) ::
    (center, (0, 0)) :: (left, (0.5, 0)) :: (right, (-0.5, 0)) ::
    (top, (0, 0.5)) :: (topleft, (0.5, 0.5)) :: (topright, (-0.5, 0.5)) :: nil in
  (forall name dx dy,
     In (name, (dx, dy)) table ->
     anchor obj = Some (AnchorName name) ->
     translateAnchorToCenter obj true = vec2 (vx p + w * dx) (vy p + h * dy)) /\
  (forall name, exists dx dy, In (name, (dx, dy)) table) /\
  (forall ax ay,
     anchor obj = Some (AnchorPoint (vec2 ax ay)) ->
     translateAnchorToCenter obj true
     = vec2 (vx p + w * (0.5 - ax)) (vy p + h * (0.5 - ay))) /\
  (forall name dx dy,
     In (name, (dx, dy)) table ->
     anchor obj = Some (AnchorName name) ->
     translateAnchorToCenter obj false = vec2 (vx p + 0 * dx) (vy p + 0 * dy)) /\
  (forall ax ay,
     anchor obj = Some (AnchorPoint (vec2 ax ay)) ->
     translateAnchorToCenter obj false
     = vec2 (vx p + 0 * (0.5 - ax)) (vy p + 0 * (0.5 - ay))) /\
  translateAnchorToCenter obj false =v= p.
Proof.
  intros p w h table. subst p w h table.
  split; [| split; [| split; [| split; [| split]]]].
  - intros name dx dy Hin Ha.
    unfold translateAnchorToCenter, anchorOf, renderAreaOf. rewrite Ha.
    simpl in Hin.
    repeat (destruct Hin as [[= <- <- <-] | Hin]; [reflexivity |]).
    destruct Hin.
  - intros name. destruct name; eexists _, _; simpl; auto 12.
  - intros ax ay Ha.
    unfold translateAnchorToCenter, anchorOf, renderAreaOf. now rewrite Ha.
  - intros name dx dy Hin Ha.
    unfold translateAnchorToCenter, anchorOf, renderAreaOf. rewrite Ha.
    simpl in Hin.
    repeat (destruct Hin as [[= <- <- <-] | Hin]; [reflexivity |]).
    destruct Hin.
  - intros ax ay Ha.
    unfold translateAnchorToCenter, anchorOf, renderAreaOf. now rewrite Ha.
  - unfold translateAnchorToCenter.
    destruct (anchorDelta (anchorOf obj)) as [dx dy]. split; simpl; ring.
Qed.

Lemma C6_witness :
  anchor player = Some (AnchorName center) /\
  translateAnchorToCenter player true = vec2 (100 + 25 * 0) (0 + 25 * 0) /\
  anchor pinned = Some (AnchorPoint (vec2 0.25 1)) /\
  translateAnchorToCenter pinned true
  = vec2 (10 + 40 * (0.5 - 0.25)) (10 + 20 * (0.5 - 1)) /\
  translateAnchorToCenter pinned false
  = vec2 (10 + 0 * (0.5 - 0.25)) (10 + 0 * (0.5 - 1)).
Proof.
  split; [reflexivity |].
  split.
  { apply (proj1 (C6_anchor_table player) center 0 0); [| reflexivity].
    simpl. right. right. right. left. reflexivity. }
  split; [reflexivity |].
  split.
  { apply (proj1 (proj2 (proj2 (C6_anchor_table pinned))) 0.25 1). reflexivity. }
  apply (proj1 (proj2 (proj2 (proj2 (proj2 (C6_anchor_table pinned))))) 0.25 1).
  reflexivity.
Defined.

(** ** The fixed-step loop *)

Section Stepping.

Context (R : Engine) (opts : option RapierPluginOptions).

Local Abbreviation STEP := (PHYSICS_STEP opts).

(** Simulated time plus the remainder carried in the accumulator. *)
Local Abbreviation accounted s := (simulatedMillis opts s + acc s).

(** With the interval positive and enough iterations allowed, the loop ends,
    keeps the accounted time, leaves less than one interval, and has stepped
    the world once per count. *)
Lemma stepLoop_spec (fuel : nat) :
  forall (w : World) (s : Stepper),
    0 < STEP ->
    0 <= acc s ->
    acc s < inject_Z (Z.of_nat (S fuel)) * STEP ->
    exists w' s',
      stepLoop R opts fuel w s = Some (w', s') /\
      accounted s' == accounted s /\
      0 <= acc s' /\ acc s' < STEP /\
      w' = Nat.iter (Z.to_nat (updateCount s' - updateCount s)) (eng_step R) w /\
      (updateCount s <= updateCount s')%Z.
Proof.
  induction fuel as [| fuel IH]; intros w s Hpos Hge Hlt.
  - simpl stepLoop.
    destruct (Qle_bool STEP (acc s)) eqn:E.
    + apply Qle_bool_iff in E. change (inject_Z (Z.of_nat 1)) with 1 in Hlt. lra.
    + exists w, s.
      assert (acc s < STEP) as Hlt'.
      { destruct (Qlt_le_dec (acc s) STEP) as [H | H]; [exact H |].
        apply Qle_bool_iff in H. congruence. }
      rewrite Z.sub_diag.
      split; [reflexivity | split; [reflexivity |]].
      split; [exact Hge | split; [exact Hlt' | split; [reflexivity | lia]]].
  - simpl stepLoop.
    destruct (Qle_bool STEP (acc s)) eqn:E.
    + apply Qle_bool_iff in E.
      destruct (IH (eng_step R w) (mkStepper (acc s - STEP) (updateCount s + 1)%Z))
        as (w' & s' & Hrun & Hacc & H0 & H1 & Hw & Hc); simpl acc;
        [exact Hpos | lra | |].
      { rewrite !Nat2Z.inj_succ in Hlt. unfold Z.succ in Hlt.
        rewrite !inject_Z_plus in Hlt. change (inject_Z 1) with 1 in Hlt.
        rewrite Nat2Z.inj_succ. unfold Z.succ. rewrite inject_Z_plus.
        change (inject_Z 1) with 1. lra. }
      exists w', s'. split; [exact Hrun |].
      simpl in Hc.
      split; [| split; [exact H0 | split; [exact H1 | split; [| lia]]]].
      * rewrite Hacc. unfold simulatedMillis. simpl.
        rewrite inject_Z_plus. change (inject_Z 1) with 1. ring.
      * rewrite Hw. simpl updateCount.
        replace (Z.to_nat (updateCount s' - updateCount s))
          with (S (Z.to_nat (updateCount s' - (updateCount s + 1)))) by lia.
        now rewrite Nat.iter_succ_r.
    + exists w, s.
      assert (acc s < STEP) as Hlt'.
      { destruct (Qlt_le_dec (acc s) STEP) as [H | H]; [exact H |].
        apply Qle_bool_iff in H. congruence. }
      rewrite Z.sub_diag.
      split; [reflexivity | split; [reflexivity |]].
      split; [exact Hge | split; [exact Hlt' | split; [reflexivity | lia]]].
Qed.

(** Whenever the loop ends, the world has been stepped once for each unit
    the counter went up. *)
Lemma stepLoop_steps (fuel : nat) :
  forall (w w' : World) (s s' : Stepper),
    stepLoop R opts fuel w s = Some (w', s') ->
    (updateCount s <= updateCount s')%Z /\
    w' = Nat.iter (Z.to_nat (updateCount s' - updateCount s)) (eng_step R) w.
Proof.
  induction fuel as [| fuel IH]; intros w w' s s' Hrun; simpl in Hrun;
    destruct (Qle_bool STEP (acc s)); try discriminate.
  - injection Hrun as <- <-. rewrite Z.sub_diag. split; [lia | reflexivity].
  - apply IH in Hrun as [Hc Hw]. simpl in Hc, Hw. split; [lia |].
    rewrite Hw.
    replace (Z.to_nat (updateCount s' - updateCount s))
      with (S (Z.to_nat (updateCount s' - (updateCount s + 1)))) by lia.
    now rewrite Nat.iter_succ_r.
  - injection Hrun as <- <-. rewrite Z.sub_diag. split; [lia | reflexivity].
Qed.

Lemma onUpdate_steps (fuel : nat) (f : Frame) (w w' : World) (s s' : Stepper) :
  onUpdate R opts fuel f (Some w) s = Some (Some w', s') ->
  (updateCount s <= updateCount s')%Z /\
  w' = Nat.iter (Z.to_nat (updateCount s' - updateCount s)) (eng_step R)
         (set_gravity (vec2 (vx (gravity w)) (getGravity f)) w).
Proof.
  unfold onUpdate. intros Hrun.
  destruct (stepLoop R opts fuel
              (set_gravity (vec2 (vx (gravity w)) (getGravity f)) w)
              (mkStepper (acc s + dt f * 1000) (updateCount s)))
    as [[w2 s2] |] eqn:E; [| discriminate].
  injection Hrun as <- <-. apply stepLoop_steps in E. exact E.
Qed.

(** Before [load], a frame changes nothing. *)
Lemma onUpdates_unloaded (fuel : nat) (fs : list Frame) (s : Stepper) :
  onUpdates R opts fuel fs None s = Some (None, s).
Proof.
  induction fs as [| f fs IH]; simpl; [reflexivity | exact IH].
Qed.

Lemma onUpdate_spec (fuel : nat) (f : Frame) (w : World) (s : Stepper) :
  0 < STEP -> 0 <= dt f -> 0 <= acc s -> acc s < STEP ->
  STEP + dt f * 1000 <= inject_Z (Z.of_nat (S fuel)) * STEP ->
  exists w' s',
    onUpdate R opts fuel f (Some w) s = Some (Some w', s') /\
    accounted s' == accounted s + dt f * 1000 /\
    0 <= acc s' /\ acc s' < STEP.
Proof.
  intros Hpos Hdt H0 H1 Hfuel. unfold onUpdate.
  destruct (stepLoop_spec fuel
              (set_gravity (vec2 (vx (gravity w)) (getGravity f)) w)
              (mkStepper (acc s + dt f * 1000) (updateCount s)))
    as (w' & s' & Hrun & Hacc & Ha & Hb & _ & _); simpl acc; try lra.
  rewrite Hrun. exists w', s'. split; [reflexivity |].
  split; [| split; assumption].
  rewrite Hacc. unfold simulatedMillis. simpl. ring.
Qed.

Lemma elapsedMillis_nonneg (fs : list Frame) :
  Forall (fun f => 0 <= dt f) fs -> 0 <= elapsedMillis fs.
Proof.
  induction 1 as [| f fs Hf _ IH]; simpl; lra.
Qed.

Lemma onUpdates_spec (fuel : nat) (fs : list Frame) :
  forall (w : World) (s : Stepper),
    0 < STEP -> Forall (fun f => 0 <= dt f) fs ->
    0 <= acc s -> acc s < STEP ->
    STEP + elapsedMillis fs <= inject_Z (Z.of_nat (S fuel)) * STEP ->
    exists w' s',
      onUpdates R opts fuel fs (Some w) s = Some (Some w', s') /\
      accounted s' == accounted s + elapsedMillis fs /\
      0 <= acc s' /\ acc s' < STEP.
Proof.
  induction fs as [| f fs IH]; intros w s Hpos Hall H0 H1 Hfuel.
  - exists w, s. simpl. split; [reflexivity |]. split; [ring | split; assumption].
  - inversion Hall as [| ? ? Hf Hfs]; subst.
    pose proof (elapsedMillis_nonneg fs Hfs) as Hrest.
    simpl elapsedMillis in Hfuel.
    destruct (onUpdate_spec fuel f w s) as (w1 & s1 & Hrun & Hacc & Ha & Hb);
      try assumption; try lra.
    destruct (IH w1 s1) as (w2 & s2 & Hrun2 & Hacc2 & Ha2 & Hb2);
      try assumption; try lra.
    exists w2, s2. cbn [onUpdates]. rewrite Hrun. split; [exact Hrun2 |].
    split; [| split; assumption].
    rewrite Hacc2, Hacc. simpl. ring.
Qed.

Lemma elapsedMillis_firstn (fs : list Frame) (n : nat) :
  Forall (fun f => 0 <= dt f) fs ->
  elapsedMillis (firstn n fs) <= elapsedMillis fs.
Proof.
  intros Hall. revert n.
  induction Hall as [| f fs Hf Hfs IH]; intros [| n]; simpl; try lra.
  - pose proof (elapsedMillis_nonneg fs Hfs). lra.
  - specialize (IH n). lra.
Qed.

Lemma Forall_firstn {A : Type} (P : A -> Prop) (l : list A) (n : nat) :
  Forall P l -> Forall P (firstn n l).
Proof.
  intros H. revert n. induction H; intros [| n]; simpl; constructor; auto.
Qed.

(** A bound on the iterations of one frame that is enough for a whole run. *)
Lemma enough_fuel (e : Q) :
  0 < STEP -> 0 <= e ->
  exists fuel : nat, STEP + e <= inject_Z (Z.of_nat (S fuel)) * STEP.
Proof.
  intros Hpos He.
  exists (Z.to_nat (Qceiling (e / STEP))).
  rewrite Nat2Z.inj_succ. unfold Z.succ. rewrite inject_Z_plus.
  change (inject_Z 1) with 1.
  assert (0 <= e / STEP) as Hq.
  { apply Qle_shift_div_l; [exact Hpos | lra]. }
  assert (0 <= Qceiling (e / STEP))%Z as Hc.
  { rewrite Zle_Qle. eapply Qle_trans; [exact Hq | apply Qle_ceiling]. }
  rewrite Z2Nat.id by exact Hc.
  pose proof (Qle_ceiling (e / STEP)) as Hle.
  assert (e == e / STEP * STEP) as Heq by (field; lra).
  assert (e / STEP * STEP <= inject_Z (Qceiling (e / STEP)) * STEP) as Hm.
  { apply Qmult_le_compat_r; [exact Hle | lra]. }
  lra.
Qed.

(** C3: with a positive step interval and the world loaded, for every run
    of frames with non-negative deltas: each frame steps the world exactly
    as many times as it raises the step count, so that the simulated time is
    the step count times the interval; and there is a bound on the loop
    under which every frame boundary is reached, and at each of them the
    simulated time plus the accumulator equals the elapsed time, the
    accumulator lies in [0, interval), and so the simulated time is at most
    the elapsed time and less than one interval behind it. *)
Theorem C3_accumulator_conservation (fs : list Frame) (w : World) :
  0 < STEP ->
  Forall (fun f => 0 <= dt f) fs ->
  (forall fuel f w0 s0 w1 s1,
     onUpdate R opts fuel f (Some w0) s0 = Some (Some w1, s1) ->
     (updateCount s0 <= updateCount s1)%Z /\
     w1 = Nat.iter (Z.to_nat (updateCount s1 - updateCount s0)) (eng_step R)
            (set_gravity (vec2 (vx (gravity w0)) (getGravity f)) w0) /\
     simulatedMillis opts s1 - simulatedMillis opts s0
       == inject_Z (updateCount s1 - updateCount s0) * STEP) /\
  exists fuel : nat, forall n : nat, exists w' s',
    onUpdates R opts fuel (firstn n fs) (Some w) initialStepper
      = Some (Some w', s') /\
    simulatedMillis opts s' = inject_Z (updateCount s') * STEP /\
    simulatedMillis opts s' + acc s' == elapsedMillis (firstn n fs) /\
    0 <= acc s' /\ acc s' < STEP /\
    simulatedMillis opts s' <= elapsedMillis (firstn n fs) /\
    elapsedMillis (firstn n fs) < simulatedMillis opts s' + STEP.
Proof.
  intros Hpos Hall. split.
  { intros fuel f w0 s0 w1 s1 Hrun.
    apply onUpdate_steps in Hrun as [Hc Hw].
    split; [exact Hc | split; [exact Hw |]].
    unfold simulatedMillis, Z.sub. rewrite inject_Z_plus, inject_Z_opp. ring. }
  destruct (enough_fuel (elapsedMillis fs) Hpos (elapsedMillis_nonneg fs Hall))
    as [fuel Hfuel].
  exists fuel. intros n.
  pose proof (elapsedMillis_firstn fs n Hall) as Hn.
  destruct (onUpdates_spec fuel (firstn n fs) w initialStepper)
    as (w' & s' & Hrun & Hacc & Ha & Hb); simpl acc; try lra.
  { now apply Forall_firstn. }
  exists w', s'. split; [exact Hrun |]. split; [reflexivity |].
  assert (simulatedMillis opts s' + acc s' == elapsedMillis (firstn n fs)) as Hsum.
  { rewrite Hacc. unfold simulatedMillis. simpl. ring. }
  split; [exact Hsum |]. split; [exact Ha |]. split; [exact Hb |]. lra.
Qed.

End Stepping.

(** The three frames under the default interval of 5 ms: 20 ms make four
    steps and leave nothing. *)
Example threeFrames_run :
  exists w s,
    onUpdates plainEngine None 10 threeFrames (Some emptyWorld) initialStepper
      = Some (Some w, s) /\
    updateCount s = 4%Z /\ acc s == 0.
Proof.
  eexists _, _. split; [vm_compute; reflexivity |]. split; reflexivity.
Qed.

Lemma C3_witness :
  0 < PHYSICS_STEP None /\
  Forall (fun f => 0 <= dt f) threeFrames /\
  exists fuel : nat, forall n : nat, exists w' s',
    onUpdates plainEngine None fuel (firstn n threeFrames) (Some emptyWorld)
      initialStepper = Some (Some w', s') /\
    simulatedMillis None s' = inject_Z (updateCount s') * PHYSICS_STEP None /\
    simulatedMillis None s' + acc s' == elapsedMillis (firstn n threeFrames) /\
    0 <= acc s' /\ acc s' < PHYSICS_STEP None /\
    simulatedMillis None s' <= elapsedMillis (firstn n threeFrames) /\
    elapsedMillis (firstn n threeFrames) < simulatedMillis None s' + PHYSICS_STEP None.
Proof.
  assert (0 < PHYSICS_STEP None) as Hpos by reflexivity.
  assert (Forall (fun f => 0 <= dt f) threeFrames) as Hall.
  { repeat constructor; simpl; discriminate. }
  split; [exact Hpos |]. split; [exact Hall |].
  exact (proj2 (C3_accumulator_conservation plainEngine None threeFrames emptyWorld
                  Hpos Hall)).
Defined.

(** ** The body component *)

Ltac run_monad :=
  unfold bind, gets, modify, ret, throw, onWorld, setRotation, setGravityScale,
    setTranslation, setLinvel, setMass, updBody, askBody, updCollider, askCollider,
    createRigidBody, createCollider, set_world, set_this, set_rbody, set_collider,
    set_bodies, set_colliders, bump_handle;
  cbn;
  repeat (rewrite ?lookup_insert_eq, ?insert_insert_eq; cbn).

Section Body.

Context (R : Engine) (k : KaboomCtx) (opts : option RapierBodyOptions).

(** *** Lazy creation *)

(** With a body already there, [ensureBody] does nothing. *)
Lemma ensureBody_created (s : St) (h : nat) :
  rbody (comp s) = Some h -> ensureBody R opts s = (Done tt, s).
Proof.
  intros H. unfold ensureBody, bind, gets. simpl. now rewrite H.
Qed.

(** Without one, it builds the body and, by the shape, the collider; when
    the hull fails, the body stays behind. *)
Lemma ensureBody_fresh (s : St) :
  rbody (comp s) = None ->
  ensureBody R opts s =
  match shapeOf R (this (comp s)) with
  | Done (Some d) => (Done tt, bodyAndCollider opts d s)
  | Done None => (Done tt, bodyOnly opts s)
  | Throw e => (Throw e, bodyOnly opts s)
  end.
Proof.
  destruct s as [[obj rb col jp] w]. simpl. intros ->.
  unfold ensureBody, shapeOf, bodyOnly, bodyAndCollider, rotated, isVisibleOf,
    initialBody, bodyDescOf.
  destruct (is_rotate obj) eqn:Hrot, (is_polygon obj) eqn:Hp;
    [ destruct (eng_convexHull R (convertPolygonPts (pts obj))) eqn:Hh
    | destruct (is_rect obj) eqn:Hr, (is_circle obj) eqn:Hc
    | destruct (eng_convexHull R (convertPolygonPts (pts obj))) eqn:Hh
    | destruct (is_rect obj) eqn:Hr, (is_circle obj) eqn:Hc ];
    run_monad; rewrite ?Hrot, ?Hp, ?Hr, ?Hc, ?Hh; run_monad; try reflexivity.
  all: rewrite ?Hrot, ?Hp, ?Hr, ?Hc, ?Hh; run_monad; try reflexivity.
Qed.

(** A member that starts with [ensureBody] and goes on with [rbody]. *)
Lemma after_ensureBody {A : Type} (K : nat -> M St A) (s s1 : St) (h : nat) :
  ensureBody R opts s = (Done tt, s1) ->
  rbody (comp s1) = Some h ->
  (ensureBody R opts ;; let* h := the_rbody in K h) s = K h s1.
Proof.
  intros He Hr. unfold bind at 1. rewrite He.
  unfold the_rbody, bind, gets, ret. simpl. now rewrite Hr.
Qed.

(** *** Destruction *)

Lemma destroy_eq (s : St) :
  destroy s =
  (Done tt,
   set_world
     (let w1 := match collider (comp s) with
                | Some c => removeCollider c false (world s)
                | None => world s
                end in
      match rbody (comp s) with
      | Some h => removeRigidBody h w1
      | None => w1
      end) s).
Proof.
  destruct s as [[obj rb col jp] w]. unfold destroy.
  destruct col, rb; reflexivity.
Qed.

Lemma lookup_fold_delete (cs : gmap nat Collider) (l : list nat) (c : nat) :
  cs !! c = None -> fold_right (fun c cs => delete c cs) cs l !! c = None.
Proof.
  intros H. induction l as [| a l IH]; simpl; [exact H |].
  destruct (decide (a = c)) as [-> | Hne].
  - apply lookup_delete_eq.
  - now rewrite lookup_delete_ne.
Qed.

Lemma removeCollider_gone (c : nat) (wakeUp : bool) (w : World) :
  colliders (removeCollider c wakeUp w) !! c = None.
Proof.
  unfold removeCollider. destruct (colliders w !! c) eqn:E; [| exact E].
  simpl. apply lookup_delete_eq.
Qed.

Lemma removeRigidBody_gone (h : nat) (w : World) :
  bodies (removeRigidBody h w) !! h = None.
Proof.
  unfold removeRigidBody. destruct (bodies w !! h) eqn:E; [| exact E].
  simpl. apply lookup_delete_eq.
Qed.

Lemma removeRigidBody_colliders (h c : nat) (w : World) :
  colliders w !! c = None -> colliders (removeRigidBody h w) !! c = None.
Proof.
  intros H. unfold removeRigidBody. destruct (bodies w !! h); [| exact H].
  simpl. now apply lookup_fold_delete.
Qed.

(** C8: a component that is constructed and then destroyed leaves the
    world as it was; [destroy] does nothing when neither body nor collider
    was created; when both exist it removes the collider and then the body,
    and when only the body exists it removes the body. *)
Theorem C8_lazy_creation_and_destroy :
  (forall obj w, destroy (fresh opts obj w) = (Done tt, fresh opts obj w)) /\
  (forall s, rbody (comp s) = None -> collider (comp s) = None ->
             destroy s = (Done tt, s)) /\
  (forall s h c, rbody (comp s) = Some h -> collider (comp s) = Some c ->
     destroy s =
       (Done tt,
        set_world (removeRigidBody h (removeCollider c false (world s))) s) /\
     colliders (world (snd (destroy s))) !! c = None /\
     bodies (world (snd (destroy s))) !! h = None) /\
  (forall s h, rbody (comp s) = Some h -> collider (comp s) = None ->
     destroy s = (Done tt, set_world (removeRigidBody h (world s)) s) /\
     bodies (world (snd (destroy s))) !! h = None).
Proof.
  split; [| split; [| split]].
  - intros obj w. reflexivity.
  - intros s Hr Hc. rewrite destroy_eq, Hr, Hc. now destruct s.
  - intros s h c Hr Hc. rewrite destroy_eq, Hr, Hc. simpl.
    split; [reflexivity |]. split.
    + apply removeRigidBody_colliders, removeCollider_gone.
    + apply removeRigidBody_gone.
  - intros s h Hr Hc. rewrite destroy_eq, Hr, Hc. simpl.
    split; [reflexivity | apply removeRigidBody_gone].
Qed.

(** *** Translation *)

(** C10: [translateX(x)] leaves the component as [ensureBody] left it and
    replaces the body's translation by (x, the Y it had at the call);
    [translateY(y)] replaces it by (the X it had at the call, y). *)
Theorem C10_translate_one_axis (s s1 : St) (h : nat) (b : RigidBody) (x y : Q) :
  ensureBody R opts s = (Done tt, s1) ->
  rbody (comp s1) = Some h ->
  bodies (world s1) !! h = Some b ->
  (exists s',
     translateX R opts x s = (Done tt, s') /\
     comp s' = comp s1 /\
     bodies (world s') =
       <[h := wake true (with_translation (vec2 x (vy (rb_translation b))) b)]>
         (bodies (world s1)) /\
     (rb_translation <$> bodies (world s') !! h)
       = Some (vec2 x (vy (rb_translation b)))) /\
  (exists s',
     translateY R opts y s = (Done tt, s') /\
     comp s' = comp s1 /\
     bodies (world s') =
       <[h := wake true (with_translation (vec2 (vx (rb_translation b)) y) b)]>
         (bodies (world s1)) /\
     (rb_translation <$> bodies (world s') !! h)
       = Some (vec2 (vx (rb_translation b)) y)).
Proof.
  intros He Hr Hb. split.
  - unfold translateX. rewrite (after_ensureBody _ s s1 h He Hr).
    unfold translation. run_monad. rewrite Hb. cbn. rewrite Hb.
    eexists. split; [reflexivity |]. cbn.
    split; [reflexivity |]. split; [reflexivity |].
    now rewrite lookup_insert_eq.
  - unfold translateY. rewrite (after_ensureBody _ s s1 h He Hr).
    unfold translation. run_monad. rewrite Hb. cbn. rewrite Hb.
    eexists. split; [reflexivity |]. cbn.
    split; [reflexivity |]. split; [reflexivity |].
    now rewrite lookup_insert_eq.
Qed.

(** *** Velocity *)

(** C7: reading [velocity] gives a proxy on the body holding a copy of its
    linear velocity; assigning the proxy's [y] (at any later state [s2] in
    which the body lives) sets the body's velocity to (the X the body
    reports then, the value assigned), and assigning [x] likewise keeps the
    body's Y; assigning the [velocity] property sets the whole vector. *)
Theorem C7_velocity_live_view (s s1 s2 : St) (h : nat) (b b2 : RigidBody)
    (a : Q) (vel : Vec2) :
  ensureBody R opts s = (Done tt, s1) ->
  rbody (comp s1) = Some h ->
  bodies (world s1) !! h = Some b ->
  bodies (world s2) !! h = Some b2 ->
  let pr := mkVelocityProxy (rb_linvel b) h in
  get_velocity R opts s = (Done pr, s1) /\
  (exists s',
     proxy_set pr "y" a s2
       = (Done (mkVelocityProxy (vec2 (vx (rb_linvel b)) a) h), s') /\
     comp s' = comp s2 /\
     (rb_linvel <$> bodies (world s') !! h) = Some (vec2 (vx (rb_linvel b2)) a)) /\
  (exists s',
     proxy_set pr "x" a s2
       = (Done (mkVelocityProxy (vec2 a (vy (rb_linvel b))) h), s') /\
     comp s' = comp s2 /\
     (rb_linvel <$> bodies (world s') !! h) = Some (vec2 a (vy (rb_linvel b2)))) /\
  (exists s',
     set_velocity R opts vel s = (Done tt, s') /\
     comp s' = comp s1 /\
     (rb_linvel <$> bodies (world s') !! h) = Some vel).
Proof.
  intros He Hr Hb Hb2 pr. subst pr. split; [| split; [| split]].
  - unfold get_velocity. rewrite (after_ensureBody _ s s1 h He Hr).
    unfold linvel. run_monad. rewrite Hb. cbn.
    destruct (rb_linvel b), s1. reflexivity.
  - unfold proxy_set, linvel. run_monad. rewrite Hb2. cbn. rewrite Hb2.
    eexists. split; [reflexivity |]. cbn.
    split; [reflexivity |]. now rewrite lookup_insert_eq.
  - unfold proxy_set, linvel. run_monad. rewrite Hb2. cbn. rewrite Hb2.
    eexists. split; [reflexivity |]. cbn.
    split; [reflexivity |]. now rewrite lookup_insert_eq.
  - unfold set_velocity. rewrite (after_ensureBody _ s s1 h He Hr).
    run_monad. rewrite Hb.
    eexists. split; [reflexivity |]. cbn.
    split; [reflexivity |]. now rewrite lookup_insert_eq.
Qed.

(** *** The grounded test *)

(** On an object with a shape, [isGrounded] casts, from the body's
    translation, the ray with direction (width / 2, height + 1) of the
    bounding box and a maximal time of impact of 1, solid, with no filter
    but the body itself excluded, and answers whether the cast hit; the ray
    ends width / 2 to the right of and height + 1 below the translation. *)
Lemma isGrounded_ray (s s1 : St) (h : nat) (b : RigidBody) :
  ensureBody R opts s = (Done tt, s1) ->
  rbody (comp s1) = Some h ->
  bodies (world s1) !! h = Some b ->
  isVisibleOf (this (comp s1)) = true ->
  let bbox := renderArea_bbox (this (comp s1)) in
  let ray := mkRay (rb_translation b)
                   (vec2 (rect_width bbox / 2) (rect_height bbox + 1)) in
  isGrounded R opts s =
    (Done (match eng_castRay R (world s1) ray 1 true None None None (Some h) with
           | Some _ => true
           | None => false
           end), s1) /\
  pointAt ray 1 =v=
    vec2 (vx (rb_translation b) + rect_width bbox / 2)
         (vy (rb_translation b) + rect_height bbox + 1).
Proof.
  intros He Hr Hb Hv bbox ray. split.
  - unfold isGrounded. rewrite (after_ensureBody _ s s1 h He Hr).
    unfold renderArea, translation, bind at 1, gets at 1. rewrite Hv.
    run_monad. rewrite Hb. cbn.
    destruct s1. reflexivity.
  - unfold pointAt, ray. split; simpl; ring.
Qed.


End Body.

(** The player's body is created by the first call and is body 0. *)
Lemma playerCreated_eq :
  ensureBody plainEngine None (fresh None player emptyWorld) = (Done tt, playerCreated).
Proof. vm_compute. reflexivity. Qed.

Lemma playerCreated_body :
  rbody (comp playerCreated) = Some 0%nat /\
  collider (comp playerCreated) = Some 1%nat /\
  bodies (world playerCreated) !! 0%nat = Some playerBody.
Proof. vm_compute. repeat split. Qed.

Lemma playerMoving_body :
  bodies (world playerMoving) !! 0%nat = Some playerMovingBody.
Proof. vm_compute. reflexivity. Qed.

(** C5, at the input where the code departs from it: the polygon [dart],
    with the corners (0, 0), (10, 5), (0, 10) and (3, 5), turns left at
    (10, 5) and right at (3, 5), so it is not convex; and yet [ensureBody]
    succeeds on it and does not throw "polygon is not convex": the engine
    builds the hull of the four points, the triangle without (3, 5), and the
    body gets that hull as its collider, with mass 1. *)
Theorem C5_concave_polygon_is_accepted :
  is_polygon dart = true /\
  pts dart = vec2 0 0 :: vec2 10 5 :: vec2 0 10 :: vec2 3 5 :: nil /\
  0 < cross (vec2 0 0) (vec2 10 5) (vec2 0 10) /\
  cross (vec2 0 10) (vec2 3 5) (vec2 0 0) < 0 /\
  ensureBody plainEngine None (fresh None dart emptyWorld)
    = (Done tt,
       bodyAndCollider None (convexPolygon (0 :: 0 :: 10 :: 5 :: 0 :: 10 :: nil))
         (fresh None dart emptyWorld)) /\
  collider (comp (snd (ensureBody plainEngine None (fresh None dart emptyWorld))))
    = Some 1%nat /\
  colliders (world (snd (ensureBody plainEngine None (fresh None dart emptyWorld))))
    !! 1%nat
    = Some (mkCollider (convexPolygon (0 :: 0 :: 10 :: 5 :: 0 :: 10 :: nil)) 0
                       (Mass 1) 0) /\
  fst (ensureBody plainEngine None (fresh None dart emptyWorld))
    <> Throw (Error "polygon is not convex").
Proof.
  split; [reflexivity |]. split; [reflexivity |].
  split; [reflexivity |]. split; [reflexivity |].
  split; [vm_compute; reflexivity |].
  split; [vm_compute; reflexivity |].
  split; [vm_compute; reflexivity |].
  vm_compute. discriminate.
Qed.

Lemma C8_witness :
  rbody (comp playerCreated) = Some 0%nat /\
  collider (comp playerCreated) = Some 1%nat /\
  destroy playerCreated =
    (Done tt,
     set_world (removeRigidBody 0 (removeCollider 1 false (world playerCreated)))
               playerCreated) /\
  colliders (world (snd (destroy playerCreated))) !! 1%nat = None /\
  bodies (world (snd (destroy playerCreated))) !! 0%nat = None.
Proof.
  split; [reflexivity |]. split; [reflexivity |].
  exact (proj1 (proj2 (proj2 (C8_lazy_creation_and_destroy None)))
           playerCreated 0%nat 1%nat eq_refl eq_refl).
Defined.

Lemma C10_witness :
  ensureBody plainEngine None (fresh None player emptyWorld) = (Done tt, playerCreated) /\
  rbody (comp playerCreated) = Some 0%nat /\
  bodies (world playerCreated) !! 0%nat = Some playerBody /\
  (exists s',
     translateX plainEngine None 7 (fresh None player emptyWorld) = (Done tt, s') /\
     comp s' = comp playerCreated /\
     bodies (world s') =
       <[0%nat := wake true (with_translation (vec2 7 (vy (rb_translation playerBody)))
                                             playerBody)]>
         (bodies (world playerCreated)) /\
     (rb_translation <$> bodies (world s') !! 0%nat)
       = Some (vec2 7 (vy (rb_translation playerBody)))).
Proof.
  split; [exact playerCreated_eq |].
  split; [exact (proj1 playerCreated_body) |].
  split; [exact (proj2 (proj2 playerCreated_body)) |].
  exact (proj1 (C10_translate_one_axis plainEngine None
                  (fresh None player emptyWorld) playerCreated 0%nat playerBody 7 9
                  playerCreated_eq (proj1 playerCreated_body)
                  (proj2 (proj2 playerCreated_body)))).
Defined.

Lemma C7_witness :
  ensureBody plainEngine None (fresh None player emptyWorld) = (Done tt, playerCreated) /\
  rbody (comp playerCreated) = Some 0%nat /\
  bodies (world playerCreated) !! 0%nat = Some playerBody /\
  bodies (world playerMoving) !! 0%nat = Some playerMovingBody /\
  get_velocity plainEngine None (fresh None player emptyWorld)
    = (Done (mkVelocityProxy (rb_linvel playerBody) 0), playerCreated) /\
  (exists s',
     proxy_set (mkVelocityProxy (rb_linvel playerBody) 0) "y" (-200) playerMoving
       = (Done (mkVelocityProxy (vec2 (vx (rb_linvel playerBody)) (-200)) 0), s') /\
     comp s' = comp playerMoving /\
     (rb_linvel <$> bodies (world s') !! 0%nat)
       = Some (vec2 (vx (rb_linvel playerMovingBody)) (-200))).
Proof.
  split; [exact playerCreated_eq |].
  split; [exact (proj1 playerCreated_body) |].
  split; [exact (proj2 (proj2 playerCreated_body)) |].
  split; [exact playerMoving_body |].
  pose proof (C7_velocity_live_view plainEngine None
                (fresh None player emptyWorld) playerCreated playerMoving 0%nat
                playerBody playerMovingBody (-200) (vec2 1 2)
                playerCreated_eq (proj1 playerCreated_body)
                (proj2 (proj2 playerCreated_body)) playerMoving_body) as H.
  exact (conj (proj1 H) (proj1 (proj2 H))).
Defined.

Example isGrounded_player :
  ensureBody plainEngine None (fresh None player emptyWorld) = (Done tt, playerCreated) /\
  rbody (comp playerCreated) = Some 0%nat /\
  bodies (world playerCreated) !! 0%nat = Some playerBody /\
  isVisibleOf (this (comp playerCreated)) = true /\
  isGrounded plainEngine None (fresh None player emptyWorld) =
    (Done (match eng_castRay plainEngine (world playerCreated)
                   (mkRay (rb_translation playerBody)
                      (vec2 (rect_width (renderArea_bbox (this (comp playerCreated))) / 2)
                            (rect_height (renderArea_bbox (this (comp playerCreated))) + 1)))
                   1 true None None None (Some 0%nat) with
           | Some _ => true
           | None => false
           end), playerCreated).
Proof.
  split; [exact playerCreated_eq |].
  split; [exact (proj1 playerCreated_body) |].
  split; [exact (proj2 (proj2 playerCreated_body)) |].
  split; [reflexivity |].
  exact (proj1 (isGrounded_ray plainEngine None
                  (fresh None player emptyWorld) playerCreated 0%nat playerBody
                  playerCreated_eq (proj1 playerCreated_body)
                  (proj2 (proj2 playerCreated_body)) eq_refl)).
Qed.

(** C2, at the input where the code departs from it: the body of the pillar
    sits at (0, 0), its lower edge at y = 100, and the ground begins at
    y = 200, a hundred units below, with nothing else in the world.  The ray
    of the code has the direction (width / 2, height + 1) = (5, 201): it ends
    at (5, 201), below the ground line, so the cast hits and [isGrounded]
    answers true.  The ray of the claim, straight down and of length
    height / 2 + 1, ends at (0, 101) and hits nothing. *)
Theorem C2_pillar_in_the_air_is_grounded :
  (rb_translation <$>
     bodies (world (snd (isGrounded (floorEngine 200) None
                           (fresh None pillar emptyWorld)))) !! 0%nat)
    = Some (vec2 0 0) /\
  fst (isGrounded (floorEngine 200) None (fresh None pillar emptyWorld)) = Done true /\
  pointAt (groundRay (vec2 0 0) (renderArea_bbox pillar)) maxToi =v= vec2 5 201 /\
  pointAt (spec_groundRay (vec2 0 0) (renderArea_bbox pillar)) maxToi =v= vec2 0 101 /\
  eng_castRay (floorEngine 200) emptyWorld
    (spec_groundRay (vec2 0 0) (renderArea_bbox pillar)) maxToi true
    None None None (Some 0%nat) = None.
Proof.
  split; [vm_compute; reflexivity |].
  split; [vm_compute; reflexivity |].
  split; [split; reflexivity |].
  split; [split; reflexivity |].
  vm_compute; reflexivity.
Qed.

(** ** The joint component *)

(** The chain of conditionals ends in [null] exactly for the tags outside
    the five kinds. *)
Lemma jointParams_None (j : RapierJointDataOptions) :
  jointParams j = None <-> ~ In (jo_type j) jointKinds.
Proof.
  unfold jointParams, jointKinds. simpl.
  destruct (String.eqb_spec (jo_type j) "fixed");
  [| destruct (String.eqb_spec (jo_type j) "prismatic");
  [| destruct (String.eqb_spec (jo_type j) "revolute");
  [| destruct (String.eqb_spec (jo_type j) "rope");
  [| destruct (String.eqb_spec (jo_type j) "spring")]]]].
  all: split; intros H; try discriminate; try (exfalso; apply H; auto 10; fail).
  - intros [E | [E | [E | [E | [E | []]]]]]; congruence.
  - reflexivity.
Qed.

(** Asking for the body adds no joint: [ensureBody] makes bodies and
    colliders only. *)
Lemma ensureBody_joints (R : Engine) (opts : option RapierBodyOptions) (s : St) :
  joints (world (snd (ensureBody R opts s))) = joints (world s).
Proof.
  destruct (rbody (comp s)) as [h |] eqn:E.
  - now rewrite (ensureBody_created R opts s h E).
  - rewrite (ensureBody_fresh R opts s E).
    destruct (shapeOf R (this (comp s))) as [[d |] | e]; reflexivity.
Qed.

Lemma onObj_getRigidBody_joints (R : Engine) (id : nat) (sc : Scene) :
  joints (sc_world (snd (onObj id (fun o => getRigidBody R o) sc)))
  = joints (sc_world sc).
Proof.
  unfold onObj. destruct (sc_objs sc !! id) as [e |]; [| reflexivity].
  pose proof (ensureBody_joints R (ent_opts e) (mkSt (ent_comp e) (sc_world sc))) as H.
  unfold getRigidBody, bind.
  destruct (ensureBody R (ent_opts e) (mkSt (ent_comp e) (sc_world sc)))
    as [[[] | ex] s1]; simpl in *; [| exact H].
  unfold the_rbody, bind, gets, ret, throw. simpl.
  destruct (rbody (comp s1)); simpl; exact H.
Qed.

(** C4: for a tag outside the five kinds the joint description that
    [rapierJoint] computes is [null], and the call fails, whatever the scene:
    no joint comes back, and the joint set of the world is as it was.  When
    both parents give their bodies (creating them if need be), the failure
    is the engine's [TypeError] on the null description, in the state the
    parents left. *)
Theorem C4_unknown_kind_fails (R : Engine) (opts : RapierJointOptions) (sc : Scene) :
  ~ In (jo_type (joint opts)) jointKinds ->
  jointParams (joint opts) = None /\
  (exists e, fst (rapierJoint R opts sc) = Throw e) /\
  joints (sc_world (snd (rapierJoint R opts sc))) = joints (sc_world sc) /\
  (forall b1 sc1 b2 sc2,
     onObj (parent1 opts) (fun o => getRigidBody R o) sc = (Done b1, sc1) ->
     onObj (parent2 opts) (fun o => getRigidBody R o) sc1 = (Done b2, sc2) ->
     rapierJoint R opts sc = (Throw TypeError, sc2)).
Proof.
  intros Hk. apply jointParams_None in Hk. split; [exact Hk |].
  pose proof (onObj_getRigidBody_joints R (parent1 opts) sc) as J1.
  unfold rapierJoint. rewrite Hk. unfold bind.
  destruct (onObj (parent1 opts) (fun o => getRigidBody R o) sc)
    as [[b1 | e1] sc1] eqn:H1; simpl in J1.
  - pose proof (onObj_getRigidBody_joints R (parent2 opts) sc1) as J2.
    destruct (onObj (parent2 opts) (fun o => getRigidBody R o) sc1)
      as [[b2 | e2] sc2] eqn:H2; simpl in J2.
    + unfold onSceneWorld, createImpulseJoint, throw. simpl.
      split; [eexists; reflexivity |].
      split; [congruence |].
      intros b1' sc1' b2' sc2' [= <- <-]. rewrite H2. intros [= <- <-].
      now destruct sc2.
    + simpl. split; [eexists; reflexivity |]. split; [congruence |].
      intros b1' sc1' b2' sc2' [= <- <-]. rewrite H2. discriminate.
  - simpl. split; [eexists; reflexivity |]. split; [exact J1 |].
    intros b1' sc1' b2' sc2'. discriminate.
Qed.

Lemma dragScene_bodies :
  onObj 0 (fun o => getRigidBody plainEngine o) dragScene = (Done 0%nat, dragScene1) /\
  onObj 1 (fun o => getRigidBody plainEngine o) dragScene1 = (Done 2%nat, dragScene2).
Proof. split; vm_compute; reflexivity. Qed.

Lemma hinge_unknown : ~ In (jo_type (joint hingeOptions)) jointKinds.
Proof. apply jointParams_None. reflexivity. Qed.

Lemma C4_witness :
  ~ In (jo_type (joint hingeOptions)) jointKinds /\
  onObj (parent1 hingeOptions) (fun o => getRigidBody plainEngine o) dragScene
    = (Done 0%nat, dragScene1) /\
  onObj (parent2 hingeOptions) (fun o => getRigidBody plainEngine o) dragScene1
    = (Done 2%nat, dragScene2) /\
  jointParams (joint hingeOptions) = None /\
  rapierJoint plainEngine hingeOptions dragScene = (Throw TypeError, dragScene2) /\
  joints (sc_world (snd (rapierJoint plainEngine hingeOptions dragScene)))
    = joints (sc_world dragScene).
Proof.
  pose proof (C4_unknown_kind_fails plainEngine hingeOptions dragScene hinge_unknown)
    as (Hp & _ & Hj & Hrun).
  split; [exact hinge_unknown |].
  split; [exact (proj1 dragScene_bodies) |].
  split; [exact (proj2 dragScene_bodies) |].
  split; [exact Hp |].
  split; [| exact Hj].
  exact (Hrun 0%nat dragScene1 2%nat dragScene2
           (proj1 dragScene_bodies) (proj2 dragScene_bodies)).
Defined.

(** By then both parents of the hinge have had their bodies created, and
    those stay in the world. *)
Example hinge_leaves_the_bodies :
  fst (rapierJoint plainEngine hingeOptions dragScene) = Throw TypeError /\
  (rb_desc <$>
     bodies (sc_world (snd (rapierJoint plainEngine hingeOptions dragScene))) !! 0%nat)
    = Some dynamic /\
  (rb_desc <$>
     bodies (sc_world (snd (rapierJoint plainEngine hingeOptions dragScene))) !! 2%nat)
    = Some dynamic /\
  bodies (sc_world dragScene) = ∅ /\
  joints (sc_world (snd (rapierJoint plainEngine hingeOptions dragScene))) = ∅.
Proof.
  repeat split; vm_compute; reflexivity.
Qed.

(** ** The body is created at most once *)

Lemma same_frame_refl (w : World) : same_frame w w.
Proof. repeat split. Qed.

Lemma same_frame_trans (w1 w2 w3 : World) :
  same_frame w1 w2 -> same_frame w2 w3 -> same_frame w1 w3.
Proof.
  intros (A1 & A2 & A3 & A4) (B1 & B2 & B3 & B4).
  repeat split; congruence.
Qed.

Lemma keeps_refl (s : St) : keeps s s.
Proof. repeat split. Qed.

Lemma keeps_trans (s1 s2 s3 : St) : keeps s1 s2 -> keeps s2 s3 -> keeps s1 s3.
Proof.
  intros (A1 & A2 & A3) (B1 & B2 & B3).
  split; [congruence | split; [congruence | eapply same_frame_trans; eassumption]].
Qed.

Lemma once_refl (s : St) : once s s.
Proof.
  unfold once. destruct (rbody (comp s)); [| left]; apply keeps_refl.
Qed.

Lemma keeps_once (s s' : St) : keeps s s' -> once s s'.
Proof.
  intros H. unfold once. destruct (rbody (comp s)); [| left]; exact H.
Qed.

Lemma once_trans (s1 s2 s3 : St) : once s1 s2 -> once s2 s3 -> once s1 s3.
Proof.
  unfold once. intros H12 H23.
  destruct (rbody (comp s1)) as [h1 |] eqn:E1.
  - pose proof H12 as (A1 & _). rewrite A1, E1 in H23.
    eapply keeps_trans; eassumption.
  - destruct H12 as [K12 | (h & Hr & Hb & Hd & Hn)].
    + pose proof K12 as (A1 & A2 & A3 & _ & _ & A6). rewrite A1, E1 in H23.
      destruct H23 as [K23 | (h & Hr & Hb & Hd & Hn)].
      * left. eapply keeps_trans; eassumption.
      * right. exists h. split; [exact Hr | split; [exact Hb |]].
        split; [rewrite Hd; now rewrite A3 | lia].
    + rewrite Hr in H23. destruct H23 as (B1 & B2 & B3 & _ & _ & B6).
      right. exists h. split; [congruence |]. split; [| split].
      * apply elem_of_dom. rewrite B3. now apply elem_of_dom.
      * congruence.
      * lia.
Qed.

Lemma never_again_refl (s : St) : never_again s s.
Proof.
  unfold never_again. destruct (rbody (comp s)); [| left]; split; reflexivity.
Qed.

Lemma never_again_trans (s1 s2 s3 : St) :
  never_again s1 s2 -> never_again s2 s3 -> never_again s1 s3.
Proof.
  unfold never_again. intros H12 H23.
  destruct (rbody (comp s1)) as [h1 |].
  - destruct H12 as [A1 A2]. rewrite A1 in H23. destruct H23 as [B1 B2].
    split; congruence.
  - destruct H12 as [[A1 A2] | (h & A1 & A2)]; rewrite A1 in H23.
    + destruct H23 as [[B1 B2] | (h & B1 & B2)].
      * left. split; congruence.
      * right. exists h. split; [exact B1 | lia].
    + destruct H23 as [B1 B2]. right. exists h. split; [exact B1 | lia].
Qed.

Lemma once_never_again (s s' : St) : once s s' -> never_again s s'.
Proof.
  unfold once, never_again.
  destruct (rbody (comp s)) as [h |] eqn:E.
  - intros (A1 & _ & _ & _ & _ & A6). split; congruence.
  - intros [(A1 & _ & _ & _ & _ & A6) | (h & A1 & _ & _ & A4)].
    + left. split; congruence.
    + right. exists h. split; assumption.
Qed.

Lemma next_handle_removeCollider (c : nat) (wakeUp : bool) (w : World) :
  next_handle (removeCollider c wakeUp w) = next_handle w.
Proof.
  unfold removeCollider. now destruct (colliders w !! c).
Qed.

Lemma next_handle_removeRigidBody (h : nat) (w : World) :
  next_handle (removeRigidBody h w) = next_handle w.
Proof.
  unfold removeRigidBody. now destruct (bodies w !! h).
Qed.

(** [destroy] removes, but neither creates nor forgets the body it held. *)
Lemma never_again_destroy (s : St) : never_again s (snd (destroy s)).
Proof.
  rewrite destroy_eq. unfold never_again. simpl.
  assert (next_handle
            (match rbody (comp s) with
             | Some h =>
                 removeRigidBody h
                   match collider (comp s) with
                   | Some c => removeCollider c false (world s)
                   | None => world s
                   end
             | None =>
                 match collider (comp s) with
                 | Some c => removeCollider c false (world s)
                 | None => world s
                 end
             end) = next_handle (world s)) as Hn.
  { destruct (rbody (comp s)), (collider (comp s));
      rewrite ?next_handle_removeRigidBody, ?next_handle_removeCollider; reflexivity. }
  destruct (rbody (comp s)); [| left]; split; try reflexivity; exact Hn.
Qed.

(** *** The building blocks stay within [once] *)

Lemma amo_ret {A : Type} (a : A) : at_most_once (ret a).
Proof. intros s. apply once_refl. Qed.

Lemma amo_throw {A : Type} (e : Exn) : at_most_once (@throw St A e).
Proof. intros s. apply once_refl. Qed.

Lemma amo_gets {A : Type} (f : St -> A) : at_most_once (gets f).
Proof. intros s. apply once_refl. Qed.

Lemma amo_bind {A B : Type} (m : M St A) (f : A -> M St B) :
  at_most_once m -> (forall a, at_most_once (f a)) -> at_most_once (bind m f).
Proof.
  intros Hm Hf s. unfold bind. specialize (Hm s).
  destruct (m s) as [[a | e] s1]; simpl in *; [| exact Hm].
  eapply once_trans; [exact Hm | apply Hf].
Qed.

Lemma amo_modify (g : St -> St) :
  (forall s, keeps s (g s)) -> at_most_once (modify g).
Proof. intros H s. apply keeps_once, H. Qed.

Lemma amo_onWorld {A : Type} (m : M World A) : in_frame m -> at_most_once (onWorld m).
Proof.
  intros H s. apply keeps_once. unfold onWorld. specialize (H (world s)).
  destruct (m (world s)) as [r w]. simpl in *. repeat split; apply H.
Qed.

Lemma in_frame_askBody {A : Type} (h : nat) (f : RigidBody -> A) :
  in_frame (askBody h f).
Proof.
  intros w. unfold askBody. destruct (bodies w !! h); apply same_frame_refl.
Qed.

Lemma in_frame_askCollider {A : Type} (c : nat) (f : Collider -> A) :
  in_frame (askCollider c f).
Proof.
  intros w. unfold askCollider. destruct (colliders w !! c); apply same_frame_refl.
Qed.

Lemma in_frame_updBody (h : nat) (f : RigidBody -> RigidBody) :
  (forall b, rb_colliders (f b) = rb_colliders b) -> in_frame (updBody h f).
Proof.
  intros Hf w. unfold updBody. destruct (bodies w !! h) as [b |] eqn:E;
    [| apply same_frame_refl].
  unfold same_frame, shapes, attached. simpl.
  split; [| split; [reflexivity | split; [| reflexivity]]].
  - apply dom_insert_lookup_L. now exists b.
  - rewrite fmap_insert, Hf. apply insert_id. now rewrite lookup_fmap, E.
Qed.

Lemma in_frame_updCollider (c : nat) (f : Collider -> Collider) :
  (forall co, co_shape (f co) = co_shape co) -> in_frame (updCollider c f).
Proof.
  intros Hf w. unfold updCollider. destruct (colliders w !! c) as [co |] eqn:E;
    [| apply same_frame_refl].
  unfold same_frame, shapes, attached. simpl.
  split; [reflexivity | split; [| split; reflexivity]].
  rewrite fmap_insert, Hf. apply insert_id. now rewrite lookup_fmap, E.
Qed.

Lemma in_frame_colliderAt (h i : nat) : in_frame (colliderAt h i).
Proof.
  intros w. unfold colliderAt, bind, askBody.
  destruct (bodies w !! h) as [b |]; [| apply same_frame_refl].
  destruct (nth_error (rb_colliders b) i); apply same_frame_refl.
Qed.

Section Once.

Context (R : Engine) (k : KaboomCtx) (opts : option RapierBodyOptions).

Lemma amo_ensureBody : at_most_once (ensureBody R opts).
Proof.
  intros s. destruct (rbody (comp s)) as [h |] eqn:E.
  - rewrite (ensureBody_created R opts s h E). apply once_refl.
  - rewrite (ensureBody_fresh R opts s E). unfold once. rewrite E. right.
    exists (next_handle (world s)).
    destruct (shapeOf R (this (comp s))) as [[d |] | e]; cbn;
      rewrite lookup_insert_eq, dom_insert_L;
      (split; [reflexivity | split; [eauto | split; [reflexivity | lia]]]).
Qed.

Lemma amo_the_rbody : at_most_once the_rbody.
Proof.
  apply amo_bind; [apply amo_gets |].
  intros [h |]; [apply amo_ret | apply amo_throw].
Qed.

Ltac frame :=
  first
    [ apply in_frame_askBody
    | apply in_frame_askCollider
    | apply in_frame_colliderAt
    | apply in_frame_updBody; intros ?; reflexivity
    | apply in_frame_updCollider; intros ?; reflexivity ].

Ltac amo :=
  repeat
    match goal with
    | |- at_most_once (ensureBody _ _) => apply amo_ensureBody
    | |- at_most_once the_rbody => apply amo_the_rbody
    | |- at_most_once (ret _) => apply amo_ret
    | |- at_most_once (throw _) => apply amo_throw
    | |- at_most_once (gets _) => apply amo_gets
    | |- at_most_once (bind _ _) => apply amo_bind; [| intros ?]
    | |- at_most_once (modify _) => apply amo_modify; intros ?; repeat split
    | |- at_most_once (onWorld _) => apply amo_onWorld; frame
    | |- at_most_once (match ?x with _ => _ end) => destruct x
    end.

(** Every member but [destroy] creates at most once. *)
Lemma amo_exec (op : Op) : op <> OpDestroy -> at_most_once (exec R k opts op).
Proof.
  intros Hop.
  destruct op; try congruence; clear Hop;
    unfold exec, discard, get_bounciness, set_bounciness, get_mass, set_mass,
      get_gravityScale, set_gravityScale, get_velocity, set_velocity, proxy_set,
      jump, isFalling, isGrounded, renderArea, inspect, get_mass, get_gravityScale,
      getRigidBody,
      lockPosition, lockRotation, addForce, applyImpulse, applyTorqueImpulse,
      translate, translateX, translateY, update,
      translation, rotation, linvel, gravityScaleOf, restitution,
      setTranslation, setRotation, setLinvel, setGravityScale, lockTranslations,
      lockRotations, setMass, setRestitution;
    amo.
Qed.

Lemma once_event (e : Event) (s : St) :
  is_destroy e = false -> once s (event R k opts e s).
Proof.
  intros He. destruct e as [op | obj]; simpl.
  - apply amo_exec. intros ->. discriminate.
  - apply keeps_once. repeat split.
Qed.

Lemma once_events (es : list Event) :
  forall s, forallb (fun e => negb (is_destroy e)) es = true ->
            once s (events R k opts es s).
Proof.
  induction es as [| e es IH]; intros s Hes; simpl in *.
  - apply once_refl.
  - apply andb_prop in Hes as [He Hes].
    apply negb_true_iff in He.
    eapply once_trans; [apply once_event, He | apply IH, Hes].
Qed.

Lemma never_again_event (e : Event) (s : St) : never_again s (event R k opts e s).
Proof.
  destruct (is_destroy e) eqn:He.
  - destruct e as [[] |]; try discriminate. apply never_again_destroy.
  - apply once_never_again, once_event, He.
Qed.

Lemma never_again_events (es : list Event) :
  forall s, never_again s (events R k opts es s).
Proof.
  induction es as [| e es IH]; intros s; simpl.
  - apply never_again_refl.
  - eapply never_again_trans; [apply never_again_event | apply IH].
Qed.

(** C9: over any run of member calls, interleaved with arbitrary rewrites
    of the visual object, a component that holds a body goes on holding
    that one and the world hands out no new handle: nothing is created
    again, not even after [destroy].  Over a run without [destroy],
    moreover, the body stays in the world, the component keeps its
    collider, the world keeps the same bodies and colliders, and every
    collider keeps its shape; and a component that holds no body yet ends
    either still without one, the bodies of the world unchanged, or with
    exactly one body added, which it holds. *)
Theorem C9_body_created_once (es : list Event) (s : St) :
  let s' := events R k opts es s in
  (forall h, rbody (comp s) = Some h ->
     rbody (comp s') = Some h /\
     next_handle (world s') = next_handle (world s)) /\
  (forallb (fun e => negb (is_destroy e)) es = true ->
   (forall h, created s h ->
      created s' h /\
      collider (comp s') = collider (comp s) /\
      dom (bodies (world s')) = dom (bodies (world s)) /\
      dom (colliders (world s')) = dom (colliders (world s)) /\
      shapes (world s') = shapes (world s)) /\
   (rbody (comp s) = None ->
      (rbody (comp s') = None /\
       dom (bodies (world s')) = dom (bodies (world s))) \/
      (exists h, created s' h /\
                 dom (bodies (world s')) = {[h]} ∪ dom (bodies (world s))))).
Proof.
  intros s'. split.
  - intros h Hr. pose proof (never_again_events es s) as H. fold s' in H.
    unfold never_again in H. now rewrite Hr in H.
  - intros Hes. pose proof (once_events es s Hes) as H. fold s' in H.
    unfold once in H. split.
    + intros h [Hr Hb]. rewrite Hr in H.
      destruct H as (A1 & A2 & A3 & A4 & A5 & A6).
      split; [split; [congruence |] |].
      * apply elem_of_dom. rewrite A3. now apply elem_of_dom.
      * split; [exact A2 | split; [exact A3 | split; [| exact A4]]].
        unfold shapes in A4.
        rewrite <- (dom_fmap_L co_shape (colliders (world s'))), A4.
        apply dom_fmap_L.
    + intros Hr. rewrite Hr in H.
      destruct H as [(A1 & A2 & A3 & _) | (h & B1 & B2 & B3 & _)].
      * left. split; [congruence | exact A3].
      * right. exists h. split; [split; assumption | exact B3].
Qed.

End Once.

Lemma playerCreated_created : created playerCreated 0.
Proof.
  split; [reflexivity |]. exists playerBody. vm_compute. reflexivity.
Qed.

Lemma C9_witness :
  forallb (fun e => negb (is_destroy e)) someEvents = true /\
  created playerCreated 0 /\
  created (events plainEngine plainCtx None someEvents playerCreated) 0 /\
  collider (comp (events plainEngine plainCtx None someEvents playerCreated))
    = collider (comp playerCreated) /\
  dom (bodies (world (events plainEngine plainCtx None someEvents playerCreated)))
    = dom (bodies (world playerCreated)) /\
  dom (colliders (world (events plainEngine plainCtx None someEvents playerCreated)))
    = dom (colliders (world playerCreated)) /\
  shapes (world (events plainEngine plainCtx None someEvents playerCreated))
    = shapes (world playerCreated).
Proof.
  split; [reflexivity |]. split; [exact playerCreated_created |].
  exact (proj1 (proj2 (C9_body_created_once plainEngine plainCtx None someEvents
                         playerCreated) eq_refl) 0%nat playerCreated_created).
Defined.

(** The collider of the player keeps the shape it was created with after the
    game has turned the object into the 10 by 10 box. *)
Example shape_not_rederived :
  shapes (world (events plainEngine plainCtx None someEvents playerCreated)) !! 1%nat
    = Some (cuboid (25 / 2) (25 / 2)) /\
  width (this (comp (events plainEngine plainCtx None someEvents playerCreated))) = 10.
Proof. split; vm_compute; reflexivity. Qed.

(** * Further properties *)

(** ** Anchors *)

(** X1: with no anchor set, a circle's body sits at the object's position
    whatever its bounding box, and any other visible object's body sits half
    a bounding box to the right of and below its position. *)
Theorem X1_default_anchor (obj : GameObj) (isVisible : bool) :
  anchor obj = None ->
  (is_circle obj = true -> translateAnchorToCenter obj isVisible =v= pos obj) /\
  (is_circle obj = false ->
   translateAnchorToCenter obj true =v=
     vec2 (vx (pos obj) + rect_width (renderArea_bbox obj) / 2)
          (vy (pos obj) + rect_height (renderArea_bbox obj) / 2)).
Proof.
  intros Ha. unfold translateAnchorToCenter, anchorOf, getDefaultAnchorFor.
  rewrite Ha. split; intros ->; simpl; split; simpl; field.
Qed.

Lemma X1_witness :
  (anchor box = None /\ is_circle box = false /\
   translateAnchorToCenter box true =v=
     vec2 (vx (pos box) + rect_width (renderArea_bbox box) / 2)
          (vy (pos box) + rect_height (renderArea_bbox box) / 2)) /\
  (anchor bubble = None /\ is_circle bubble = true /\
   translateAnchorToCenter bubble true =v= pos bubble).
Proof.
  split.
  - split; [reflexivity |]. split; [reflexivity |].
    exact (proj2 (X1_default_anchor box true eq_refl) eq_refl).
  - split; [reflexivity |]. split; [reflexivity |].
    exact (proj1 (X1_default_anchor bubble true eq_refl) eq_refl).
Defined.

(** X2: for an object that is not a polygon the two translations are
    inverse to each other in both directions: from the position to the
    centre and back, and from a centre to the position and back. *)
Theorem X2_roundtrip_both_ways (obj : GameObj) (isVisible : bool) (c : Vec2) :
  is_polygon obj = false ->
  translateCenterToAnchor (translateAnchorToCenter obj isVisible) obj isVisible
    =v= pos obj /\
  translateAnchorToCenter
    (set_pos (translateCenterToAnchor c obj isVisible) obj) isVisible =v= c.
Proof.
  intros Hp. split; [now apply roundtrip_not_polygon |].
  unfold translateCenterToAnchor, translateAnchorToCenter, anchorOf,
    getDefaultAnchorFor, renderAreaOf.
  rewrite Hp. simpl.
  destruct (anchorDelta _) as [dx dy].
  simpl. split; simpl; ring.
Qed.

Lemma X2_witness :
  is_polygon player = false /\
  translateCenterToAnchor (translateAnchorToCenter player true) player true
    =v= pos player /\
  translateAnchorToCenter
    (set_pos (translateCenterToAnchor (vec2 3 4) player true) player) true
    =v= vec2 3 4.
Proof.
  split; [reflexivity |].
  exact (X2_roundtrip_both_ways player true (vec2 3 4) eq_refl).
Defined.

(** ** Polygon points *)

(** X3: the flattened coordinates are twice as many as the points, keep
    their order (the flattening of a concatenation is the concatenation of
    the flattenings), and hold the x of point i at index 2i and its y at
    index 2i + 1. *)
Theorem X3_convertPolygonPts_layout :
  (forall l, List.length (convertPolygonPts l) = (2 * List.length l)%nat) /\
  (forall l1 l2,
     convertPolygonPts (l1 ++ l2) = convertPolygonPts l1 ++ convertPolygonPts l2) /\
  (forall l i,
     nth_error (convertPolygonPts l) (2 * i) = option_map vx (nth_error l i) /\
     nth_error (convertPolygonPts l) (2 * i + 1) = option_map vy (nth_error l i)).
Proof.
  split; [| split].
  - induction l as [| p l IH]; simpl; [reflexivity | rewrite IH; lia].
  - induction l1 as [| p l1 IH]; intros l2; simpl; [reflexivity | now rewrite IH].
  - induction l as [| p l IH]; intros i.
    + cbn [convertPolygonPts]. rewrite !nth_error_nil. split; reflexivity.
    + destruct i as [| i].
      * split; reflexivity.
      * replace (2 * S i)%nat with (S (S (2 * i))) by lia.
        replace (S (S (2 * i)) + 1)%nat with (S (S (2 * i + 1))) by lia.
        simpl. apply IH.
Qed.

(** ** The collider by shape *)

(** X4: when [ensureBody] creates the body of a rectangle it attaches a
    cuboid of half the width and half the height, to a circle a ball of the
    radius, and to a polygon the hull the engine builds of its points; the
    collider hangs on the new body and has the mass of the options, or 1
    when the options or their mass are left out.  When the engine builds no
    hull the call throws "polygon is not convex": the body has been made
    and stays, without a collider.  An object with no shape gets a body and
    no collider. *)
Theorem X4_collider_by_shape (R : Engine) (opts : option RapierBodyOptions) (s : St) :
  rbody (comp s) = None ->
  let obj := this (comp s) in
  let s' := snd (ensureBody R opts s) in
  let mass := match opts with
              | Some o => match opt_mass o with
                          | Some m => m
                          | None => 1
                          end
              | None => 1
              end in
  (is_polygon obj = false -> is_rect obj = true ->
   fst (ensureBody R opts s) = Done tt /\
   exists h c b,
     rbody (comp s') = Some h /\ collider (comp s') = Some c /\
     bodies (world s') !! h = Some b /\ rb_colliders b = c :: nil /\
     colliders (world s') !! c =
       Some (mkCollider (cuboid (width obj / 2) (height obj / 2)) h (Mass mass) 0)) /\
  (is_polygon obj = false -> is_rect obj = false -> is_circle obj = true ->
   fst (ensureBody R opts s) = Done tt /\
   exists h c b,
     rbody (comp s') = Some h /\ collider (comp s') = Some c /\
     bodies (world s') !! h = Some b /\ rb_colliders b = c :: nil /\
     colliders (world s') !! c =
       Some (mkCollider (ball (radius obj)) h (Mass mass) 0)) /\
  (forall hull,
   is_polygon obj = true ->
   eng_convexHull R (convertPolygonPts (pts obj)) = Some hull ->
   fst (ensureBody R opts s) = Done tt /\
   exists h c b,
     rbody (comp s') = Some h /\ collider (comp s') = Some c /\
     bodies (world s') !! h = Some b /\ rb_colliders b = c :: nil /\
     colliders (world s') !! c = Some (mkCollider hull h (Mass mass) 0)) /\
  (is_polygon obj = true ->
   eng_convexHull R (convertPolygonPts (pts obj)) = None ->
   fst (ensureBody R opts s) = Throw (Error "polygon is not convex") /\
   collider (comp s') = collider (comp s) /\
   colliders (world s') = colliders (world s) /\
   exists h b,
     rbody (comp s') = Some h /\ bodies (world s') !! h = Some b /\
     rb_colliders b = nil) /\
  (is_polygon obj = false -> is_rect obj = false -> is_circle obj = false ->
   fst (ensureBody R opts s) = Done tt /\
   collider (comp s') = collider (comp s) /\
   colliders (world s') = colliders (world s) /\
   exists h b,
     rbody (comp s') = Some h /\ bodies (world s') !! h = Some b /\
     rb_colliders b = nil).
Proof.
  intros Hfresh obj s' mass. subst s'.
  assert (optional opts opt_mass ?? 1 = mass) as Hm.
  { subst mass. destruct opts as [o |]; [| reflexivity].
    simpl. now destruct (opt_mass o). }
  rewrite (ensureBody_fresh R opts s Hfresh). fold obj.
  unfold shapeOf.
  split; [| split; [| split; [| split]]].
  - intros Hp Hr. rewrite Hp, Hr. split; [reflexivity |].
    exists (next_handle (world s)), (S (next_handle (world s))).
    cbn. rewrite !lookup_insert_eq, Hm. eexists. repeat split.
  - intros Hp Hr Hc. rewrite Hp, Hr, Hc. split; [reflexivity |].
    exists (next_handle (world s)), (S (next_handle (world s))).
    cbn. rewrite !lookup_insert_eq, Hm. eexists. repeat split.
  - intros hull Hp Hh. rewrite Hp, Hh. split; [reflexivity |].
    exists (next_handle (world s)), (S (next_handle (world s))).
    cbn. rewrite !lookup_insert_eq, Hm. eexists. repeat split.
  - intros Hp Hh. rewrite Hp, Hh.
    split; [reflexivity |]. split; [reflexivity |]. split; [reflexivity |].
    cbn. eexists _, _. split; [reflexivity |].
    rewrite lookup_insert_eq. split; reflexivity.
  - intros Hp Hr Hc. rewrite Hp, Hr, Hc.
    split; [reflexivity |]. split; [reflexivity |]. split; [reflexivity |].
    cbn. eexists _, _. split; [reflexivity |].
    rewrite lookup_insert_eq. split; reflexivity.
Qed.

Lemma X4_witness :
  (rbody (comp (fresh (Some heavyOptions) box emptyWorld)) = None /\
   is_polygon box = false /\ is_rect box = true /\
   fst (ensureBody plainEngine (Some heavyOptions)
          (fresh (Some heavyOptions) box emptyWorld)) = Done tt /\
   exists h c b,
     rbody (comp (snd (ensureBody plainEngine (Some heavyOptions)
                         (fresh (Some heavyOptions) box emptyWorld)))) = Some h /\
     collider (comp (snd (ensureBody plainEngine (Some heavyOptions)
                            (fresh (Some heavyOptions) box emptyWorld)))) = Some c /\
     bodies (world (snd (ensureBody plainEngine (Some heavyOptions)
                           (fresh (Some heavyOptions) box emptyWorld)))) !! h
       = Some b /\
     rb_colliders b = c :: nil /\
     colliders (world (snd (ensureBody plainEngine (Some heavyOptions)
                              (fresh (Some heavyOptions) box emptyWorld)))) !! c
       = Some (mkCollider (cuboid (10 / 2) (10 / 2)) h (Mass 5) 0)) /\
  (rbody (comp (fresh None disc emptyWorld)) = None /\
   is_polygon disc = false /\ is_rect disc = false /\ is_circle disc = true /\
   fst (ensureBody plainEngine None (fresh None disc emptyWorld)) = Done tt /\
   exists h c b,
     rbody (comp (snd (ensureBody plainEngine None (fresh None disc emptyWorld))))
       = Some h /\
     collider (comp (snd (ensureBody plainEngine None (fresh None disc emptyWorld))))
       = Some c /\
     bodies (world (snd (ensureBody plainEngine None (fresh None disc emptyWorld)))) !! h
       = Some b /\
     rb_colliders b = c :: nil /\
     colliders (world (snd (ensureBody plainEngine None (fresh None disc emptyWorld))))
       !! c = Some (mkCollider (ball 20) h (Mass 1) 0)).
Proof.
  split.
  - split; [reflexivity |]. split; [reflexivity |]. split; [reflexivity |].
    exact (proj1 (X4_collider_by_shape plainEngine (Some heavyOptions)
                    (fresh (Some heavyOptions) box emptyWorld) eq_refl)
             eq_refl eq_refl).
  - split; [reflexivity |]. split; [reflexivity |]. split; [reflexivity |].
    split; [reflexivity |].
    exact (proj1 (proj2 (X4_collider_by_shape plainEngine None
                           (fresh None disc emptyWorld) eq_refl))
             eq_refl eq_refl eq_refl).
Defined.

(** ** The body that [ensureBody] creates *)

Section BodyMore.

Context (R : Engine) (k : KaboomCtx) (opts : option RapierBodyOptions).

(** A successful [ensureBody] leaves the component with a body. *)
Lemma ensureBody_Done (s s1 : St) :
  ensureBody R opts s = (Done tt, s1) -> exists h, rbody (comp s1) = Some h.
Proof.
  destruct (rbody (comp s)) as [h |] eqn:E.
  - rewrite (ensureBody_created R opts s h E). intros [= <-]. eauto.
  - rewrite (ensureBody_fresh R opts s E).
    destruct (shapeOf R (this (comp s))) as [[d |] | e]; intros [= <-];
      eexists; reflexivity.
Qed.

(** Whatever [ensureBody] answers, the component has a body afterwards. *)
Lemma ensureBody_rbody (s : St) :
  exists h, rbody (comp (snd (ensureBody R opts s))) = Some h.
Proof.
  destruct (rbody (comp s)) as [h |] eqn:E.
  - rewrite (ensureBody_created R opts s h E). eauto.
  - rewrite (ensureBody_fresh R opts s E).
    destruct (shapeOf R (this (comp s))) as [[d |] | e]; eexists; reflexivity.
Qed.

(** A member that starts with [ensureBody] and goes on with [rbody]
    succeeds only through a successful [ensureBody]. *)
Lemma member_Done {A : Type} (K : nat -> M St A) (s s' : St) (a : A) :
  (ensureBody R opts ;; let* h := the_rbody in K h) s = (Done a, s') ->
  exists s1 h,
    ensureBody R opts s = (Done tt, s1) /\ rbody (comp s1) = Some h /\
    K h s1 = (Done a, s').
Proof.
  unfold bind at 1. destruct (ensureBody R opts s) as [[[] | e] s1] eqn:E;
    [| discriminate].
  destruct (ensureBody_Done s s1 E) as [h Hh].
  unfold the_rbody, bind, gets, ret. simpl. rewrite Hh. intros H.
  exists s1, h. repeat split; assumption.
Qed.

(** X5: the body a component creates is fixed when [isStatic] is set
    (also when [kinematic] is set as well), velocity-based kinematic when
    only [kinematic] is, dynamic otherwise, and dynamic without options;
    it has the gravity scale of the options, or 1 when the options or
    their gravity scale are left out, the translation that
    [translateAnchorToCenter] gives for the object, no velocity, no lock,
    and is awake.  This holds also when the creation ends in the hull
    error. *)
Theorem X5_initial_body (s : St) :
  rbody (comp s) = None ->
  let obj := this (comp s) in
  let s' := snd (ensureBody R opts s) in
  exists h b,
    rbody (comp s') = Some h /\ bodies (world s') !! h = Some b /\
    rb_desc b =
      match opts with
      | Some o =>
          match opt_isStatic o with
          | Some true => fixed
          | _ => match opt_kinematic o with
                 | Some true => kinematicVelocityBased
                 | _ => dynamic
                 end
          end
      | None => dynamic
      end /\
    rb_gravityScale b =
      match opts with
      | Some o => match opt_gravityScale o with
                  | Some g => g
                  | None => 1
                  end
      | None => 1
      end /\
    rb_translation b = translateAnchorToCenter obj (isVisibleOf obj) /\
    rb_linvel b = vec2 0 0 /\
    rb_lockTranslations b = false /\ rb_lockRotations b = false /\
    rb_sleeping b = false.
Proof.
  intros Hfresh obj s'. subst s'. rewrite (ensureBody_fresh R opts s Hfresh).
  fold obj.
  exists (next_handle (world s)).
  assert (bodyDescOf opts =
          match opts with
          | Some o =>
              match opt_isStatic o with
              | Some true => fixed
              | _ => match opt_kinematic o with
                     | Some true => kinematicVelocityBased
                     | _ => dynamic
                     end
              end
          | None => dynamic
          end) as Hd.
  { unfold bodyDescOf, optional, truthy. destruct opts as [o |]; [| reflexivity].
    destruct (opt_isStatic o) as [[|] |], (opt_kinematic o) as [[|] |]; reflexivity. }
  assert (optional opts opt_gravityScale ?? 1 =
          match opts with
          | Some o => match opt_gravityScale o with
                      | Some g => g
                      | None => 1
                      end
          | None => 1
          end) as Hg.
  { unfold optional. destruct opts as [o |]; [| reflexivity].
    simpl. now destruct (opt_gravityScale o). }
  destruct (shapeOf R obj) as [[d |] | e]; cbn; rewrite lookup_insert_eq;
    eexists; (split; [reflexivity |]); (split; [reflexivity |]);
    cbn; rewrite <- Hd, <- Hg;
    fold obj; unfold rotated; destruct (is_rotate obj); repeat split.
Qed.

(** X6: creating the body gives the object a rotate component when it has
    none, with angle 0, and changes nothing else of the object: position,
    anchor, shape and tags stay; with a body in place [ensureBody] leaves
    the whole state alone. *)
Theorem X6_ensureBody_object (s : St) :
  let obj := this (comp s) in
  let obj' := this (comp (snd (ensureBody R opts s))) in
  (rbody (comp s) = None ->
   is_rotate obj' = true /\
   angle obj' = (if is_rotate obj then angle obj else 0) /\
   pos obj' = pos obj /\ anchor obj' = anchor obj /\
   renderArea_bbox obj' = renderArea_bbox obj /\
   (is_polygon obj', is_rect obj', is_circle obj')
     = (is_polygon obj, is_rect obj, is_circle obj) /\
   (pts obj', width obj', height obj', radius obj')
     = (pts obj, width obj, height obj, radius obj)) /\
  (forall h, rbody (comp s) = Some h -> snd (ensureBody R opts s) = s).
Proof.
  intros obj obj'. subst obj'. split.
  - intros Hfresh. rewrite (ensureBody_fresh R opts s Hfresh). fold obj.
    destruct (shapeOf R obj) as [[d |] | e]; cbn; fold obj; unfold rotated;
      destruct (is_rotate obj) eqn:Hr; cbn; rewrite ?Hr; repeat split.
  - intros h Hh. now rewrite (ensureBody_created R opts s h Hh).
Qed.

(** X7: [ensureBody] is idempotent, and it throws at most once: called
    again after whatever it answered, also after the hull error, it
    succeeds and changes nothing. *)
Theorem X7_ensureBody_idempotent (s : St) :
  ensureBody R opts (snd (ensureBody R opts s))
  = (Done tt, snd (ensureBody R opts s)).
Proof.
  destruct (ensureBody_rbody s) as [h Hh].
  exact (ensureBody_created R opts _ h Hh).
Qed.

(** X8: on a body without collider (a shapeless object, or a polygon whose
    hull failed) reading or setting [bounciness] and setting [mass] throw,
    and leave the state as [ensureBody] made it. *)
Theorem X8_no_collider_throws (s s1 : St) (h : nat) (b : RigidBody) (v : Q) :
  ensureBody R opts s = (Done tt, s1) ->
  rbody (comp s1) = Some h ->
  bodies (world s1) !! h = Some b ->
  rb_colliders b = nil ->
  get_bounciness R opts s = (Throw TypeError, s1) /\
  set_bounciness R opts v s = (Throw TypeError, s1) /\
  set_mass R opts v s = (Throw TypeError, s1).
Proof.
  intros He Hr Hb Hc.
  unfold get_bounciness, set_bounciness, set_mass.
  rewrite !(after_ensureBody R opts _ s s1 h He Hr).
  unfold colliderAt. run_monad. rewrite Hb. cbn. rewrite Hc. cbn.
  destruct s1. repeat split.
Qed.

End BodyMore.

Lemma mouseCreated_eq :
  ensureBody plainEngine None (fresh None shapeless emptyWorld) = (Done tt, mouseCreated).
Proof. vm_compute. reflexivity. Qed.

Lemma X5_witness :
  rbody (comp (fresh (Some staticOptions) player emptyWorld)) = None /\
  exists h b,
    rbody (comp (snd (ensureBody plainEngine (Some staticOptions)
                        (fresh (Some staticOptions) player emptyWorld)))) = Some h /\
    bodies (world (snd (ensureBody plainEngine (Some staticOptions)
                          (fresh (Some staticOptions) player emptyWorld)))) !! h
      = Some b /\
    rb_desc b = fixed /\ rb_gravityScale b = 3.
Proof.
  split; [reflexivity |].
  destruct (X5_initial_body plainEngine (Some staticOptions)
              (fresh (Some staticOptions) player emptyWorld) eq_refl)
    as (h & b & H1 & H2 & H3 & H4 & _).
  exists h, b. repeat split; assumption.
Defined.

Lemma X6_witness :
  (rbody (comp (fresh None player emptyWorld)) = None /\
   is_rotate (this (comp (snd (ensureBody plainEngine None
                                 (fresh None player emptyWorld))))) = true /\
   pos (this (comp (snd (ensureBody plainEngine None (fresh None player emptyWorld)))))
     = pos player) /\
  (rbody (comp playerCreated) = Some 0%nat /\
   snd (ensureBody plainEngine None playerCreated) = playerCreated).
Proof.
  split.
  - split; [reflexivity |].
    pose proof (proj1 (X6_ensureBody_object plainEngine None
                         (fresh None player emptyWorld)) eq_refl)
      as (H1 & _ & H3 & _).
    exact (conj H1 H3).
  - split; [reflexivity |].
    exact (proj2 (X6_ensureBody_object plainEngine None playerCreated) 0%nat eq_refl).
Defined.

Lemma X8_witness :
  ensureBody plainEngine None (fresh None shapeless emptyWorld)
    = (Done tt, mouseCreated) /\
  rbody (comp mouseCreated) = Some 0%nat /\
  bodies (world mouseCreated) !! 0%nat = Some (initialBody None (rotated shapeless) false) /\
  rb_colliders (initialBody None (rotated shapeless) false) = nil /\
  get_bounciness plainEngine None (fresh None shapeless emptyWorld)
    = (Throw TypeError, mouseCreated) /\
  set_bounciness plainEngine None 1 (fresh None shapeless emptyWorld)
    = (Throw TypeError, mouseCreated) /\
  set_mass plainEngine None 1 (fresh None shapeless emptyWorld)
    = (Throw TypeError, mouseCreated).
Proof.
  assert (bodies (world mouseCreated) !! 0%nat
          = Some (initialBody None (rotated shapeless) false)) as Hb
    by (vm_compute; reflexivity).
  split; [exact mouseCreated_eq |]. split; [reflexivity |]. split; [exact Hb |].
  split; [reflexivity |].
  exact (X8_no_collider_throws plainEngine None (fresh None shapeless emptyWorld)
           mouseCreated 0%nat (initialBody None (rotated shapeless) false) 1
           mouseCreated_eq eq_refl Hb eq_refl).
Defined.

(** ** Accessors *)

Section Accessors.

Context (R : Engine) (k : KaboomCtx) (opts : option RapierBodyOptions).

(** [ensureBody] leaves the [jumpPower] property alone. *)
Lemma ensureBody_jumpPower (s : St) :
  jumpPower (comp (snd (ensureBody R opts s))) = jumpPower (comp s).
Proof.
  destruct (rbody (comp s)) as [h |] eqn:E.
  - now rewrite (ensureBody_created R opts s h E).
  - rewrite (ensureBody_fresh R opts s E).
    now destruct (shapeOf R (this (comp s))) as [[d |] | e].
Qed.

(** X9: what is assigned to [gravityScale], [bounciness] or [velocity] is
    what the property reads next: after a successful assignment the getter
    answers the assigned value and changes nothing. *)
Theorem X9_set_then_get (s s' : St) (v : Q) (vel : Vec2) :
  (set_gravityScale R opts v s = (Done tt, s') ->
   get_gravityScale R opts s' = (Done v, s')) /\
  (set_bounciness R opts v s = (Done tt, s') ->
   get_bounciness R opts s' = (Done v, s')) /\
  (set_velocity R opts vel s = (Done tt, s') ->
   exists h, rbody (comp s') = Some h /\
             get_velocity R opts s' = (Done (mkVelocityProxy vel h), s')).
Proof.
  split; [| split]; intros H.
  - apply member_Done in H as (s1 & h & He & Hr & HK).
    revert HK. run_monad.
    destruct (bodies (world s1) !! h) as [b |] eqn:Hb; [| discriminate].
    intros [= <-].
    unfold get_gravityScale.
    erewrite after_ensureBody;
      [| apply (ensureBody_created R opts _ h); exact Hr | exact Hr].
    unfold gravityScaleOf. run_monad. reflexivity.
  - apply member_Done in H as (s1 & h & He & Hr & HK).
    revert HK. unfold colliderAt, setRestitution. run_monad.
    destruct (bodies (world s1) !! h) as [b |] eqn:Hb; cbn; [| discriminate].
    destruct (rb_colliders b) as [| c cs] eqn:Hc; cbn; [discriminate |].
    destruct (colliders (world s1) !! c) as [co |] eqn:Hco; cbn; [| discriminate].
    intros [= <-].
    unfold get_bounciness.
    erewrite after_ensureBody;
      [| apply (ensureBody_created R opts _ h); exact Hr | exact Hr].
    unfold colliderAt, restitution. run_monad. rewrite Hb. cbn. rewrite Hc. cbn.
    rewrite lookup_insert_eq. reflexivity.
  - apply member_Done in H as (s1 & h & He & Hr & HK).
    revert HK. run_monad.
    destruct (bodies (world s1) !! h) as [b |] eqn:Hb; [| discriminate].
    intros [= <-]. exists h. split; [exact Hr |].
    unfold get_velocity.
    erewrite after_ensureBody;
      [| apply (ensureBody_created R opts _ h); exact Hr | exact Hr].
    unfold linvel. run_monad. now destruct vel.
Qed.

(** X10: [jump(power)] is [applyImpulse] of the upward vector
    (0, -power), and without an argument of (0, -jumpPower), whatever the
    state: the same answer and the same state. *)
Theorem X10_jump_is_an_impulse (power : option Q) (s : St) :
  jump R opts power s
  = applyImpulse R opts (vec2 0 (- (power ?? jumpPower (comp s)))) s.
Proof.
  pose proof (ensureBody_jumpPower s) as Hj.
  unfold jump, applyImpulse, the_rbody, bind, gets, ret.
  destruct (ensureBody R opts s) as [[[] | e] s1]; simpl in *; [| reflexivity].
  destruct (rbody (comp s1)); [| reflexivity].
  now rewrite Hj.
Qed.

(** X11: with its body in place a component's readers change nothing:
    [bounciness], [mass], [gravityScale] and [velocity] read, [isGrounded],
    [isFalling], [getRigidBody] and [inspect] leave the component, the
    object and the world as they are, also when they throw. *)
Theorem X11_readers_change_nothing (s : St) (h : nat) :
  rbody (comp s) = Some h ->
  snd (get_bounciness R opts s) = s /\
  snd (get_mass R opts s) = s /\
  snd (get_gravityScale R opts s) = s /\
  snd (get_velocity R opts s) = s /\
  snd (isGrounded R opts s) = s /\
  snd (isFalling R opts s) = s /\
  snd (getRigidBody R opts s) = s /\
  snd (inspect R opts s) = s.
Proof.
  intros Hr.
  pose proof (ensureBody_created R opts s h Hr) as He.
  assert (snd (get_mass R opts s) = s) as Hmass.
  { unfold get_mass. rewrite (after_ensureBody R opts _ s s h He Hr).
    run_monad. destruct (bodies (world s) !! h); now destruct s. }
  assert (snd (get_gravityScale R opts s) = s) as Hgs.
  { unfold get_gravityScale. rewrite (after_ensureBody R opts _ s s h He Hr).
    unfold gravityScaleOf. run_monad.
    destruct (bodies (world s) !! h); now destruct s. }
  assert (snd (isGrounded R opts s) = s) as Hg.
  { unfold isGrounded. rewrite (after_ensureBody R opts _ s s h He Hr).
    unfold renderArea, translation, bind at 1, gets at 1.
    destruct (isVisibleOf (this (comp s))); run_monad;
      [destruct (bodies (world s) !! h) |]; now destruct s. }
  assert (getRigidBody R opts s = (Done h, s)) as Hrb.
  { unfold getRigidBody, bind at 1. rewrite He.
    unfold the_rbody, bind, gets, ret. simpl. now rewrite Hr. }
  repeat split; try assumption.
  - unfold get_bounciness. rewrite (after_ensureBody R opts _ s s h He Hr).
    unfold colliderAt, restitution. run_monad.
    destruct (bodies (world s) !! h) as [b |]; [| now destruct s]. cbn.
    destruct (rb_colliders b) as [| c cs]; [now destruct s |]. cbn.
    destruct (colliders (world s) !! c); now destruct s.
  - unfold get_velocity. rewrite (after_ensureBody R opts _ s s h He Hr).
    unfold linvel. run_monad.
    destruct (bodies (world s) !! h); now destruct s.
  - unfold isFalling, bind.
    destruct (isGrounded R opts s) as [[g | e] s2]; simpl in *; exact Hg.
  - now rewrite Hrb.
  - unfold inspect, bind at 1. rewrite Hrb.
    unfold bind at 1. unfold linvel. unfold onWorld at 1, askBody at 1.
    destruct (bodies (world s) !! h) as [b |]; [| now destruct s].
    replace (set_world (world s) s) with s by now destruct s.
    unfold bind at 1.
    destruct (get_mass R opts s) as [[m | e] s2]; simpl in Hmass; subst s2;
      [| reflexivity].
    unfold bind at 1.
    destruct (get_gravityScale R opts s) as [[g | e] s2]; simpl in Hgs; subst s2;
      reflexivity.
Qed.

End Accessors.

Lemma X9_witness :
  (set_gravityScale plainEngine None 2 playerCreated
     = (Done tt, snd (set_gravityScale plainEngine None 2 playerCreated)) /\
   get_gravityScale plainEngine None
     (snd (set_gravityScale plainEngine None 2 playerCreated))
     = (Done 2, snd (set_gravityScale plainEngine None 2 playerCreated))) /\
  (set_bounciness plainEngine None 1 playerCreated
     = (Done tt, snd (set_bounciness plainEngine None 1 playerCreated)) /\
   get_bounciness plainEngine None
     (snd (set_bounciness plainEngine None 1 playerCreated))
     = (Done 1, snd (set_bounciness plainEngine None 1 playerCreated))) /\
  (set_velocity plainEngine None (vec2 3 4) playerCreated = (Done tt, playerMoving) /\
   exists h, rbody (comp playerMoving) = Some h /\
             get_velocity plainEngine None playerMoving
             = (Done (mkVelocityProxy (vec2 3 4) h), playerMoving)).
Proof.
  assert (set_gravityScale plainEngine None 2 playerCreated
          = (Done tt, snd (set_gravityScale plainEngine None 2 playerCreated))) as H1
    by (vm_compute; reflexivity).
  assert (set_bounciness plainEngine None 1 playerCreated
          = (Done tt, snd (set_bounciness plainEngine None 1 playerCreated))) as H2
    by (vm_compute; reflexivity).
  assert (set_velocity plainEngine None (vec2 3 4) playerCreated
          = (Done tt, playerMoving)) as H3
    by (vm_compute; reflexivity).
  split; [| split].
  - split; [exact H1 |].
    exact (proj1 (X9_set_then_get plainEngine None playerCreated _ 2 (vec2 0 0)) H1).
  - split; [exact H2 |].
    exact (proj1 (proj2 (X9_set_then_get plainEngine None playerCreated _ 1 (vec2 0 0)))
             H2).
  - split; [exact H3 |].
    exact (proj2 (proj2 (X9_set_then_get plainEngine None playerCreated _ 0 (vec2 3 4)))
             H3).
Defined.

Lemma X11_witness :
  rbody (comp playerCreated) = Some 0%nat /\
  snd (get_bounciness plainEngine None playerCreated) = playerCreated /\
  snd (get_mass plainEngine None playerCreated) = playerCreated.
Proof.
  split; [reflexivity |].
  pose proof (X11_readers_change_nothing plainEngine None playerCreated 0%nat eq_refl)
    as (H1 & H2 & _).
  exact (conj H1 H2).
Defined.

(** ** How the members compose *)

Section Composition.

Context (R : Engine) (k : KaboomCtx) (opts : option RapierBodyOptions).

(** A member that starts with [ensureBody], by the answer of [ensureBody]. *)
Lemma member_eq {A : Type} (K : nat -> M St A) (s : St) :
  (ensureBody R opts ;; let* h := the_rbody in K h) s =
  match ensureBody R opts s with
  | (Done _, s1) =>
      match rbody (comp s1) with
      | Some h => K h s1
      | None => (Throw TypeError, s1)
      end
  | (Throw e, s1) => (Throw e, s1)
  end.
Proof.
  unfold the_rbody, bind, gets, ret.
  destruct (ensureBody R opts s) as [[[] | e] s1]; [| reflexivity].
  simpl. now destruct (rbody (comp s1)).
Qed.

(** The same on a state whose world was changed after the body was made. *)
Lemma member_created {A : Type} (K : nat -> M St A) (c : BodyComp) (w : World)
    (h : nat) :
  rbody c = Some h ->
  (ensureBody R opts ;; let* h := the_rbody in K h) (mkSt c w) = K h (mkSt c w).
Proof.
  intros Hr. apply after_ensureBody; [| exact Hr].
  now apply (ensureBody_created R opts _ h).
Qed.

(** One call after another. *)
Lemma seq_eq {A B : Type} (m1 : M St A) (m2 : M St B) (s : St) :
  (m1 ;; m2) s =
  match m1 s with
  | (Done _, s1) => m2 s1
  | (Throw e, s1) => (Throw e, s1)
  end.
Proof. reflexivity. Qed.

(** Reading the body and then updating it is one update. *)
Lemma ask_then_upd {A : Type} (h : nat) (g : RigidBody -> A)
    (F : A -> RigidBody -> RigidBody) (s : St) :
  (let* t := onWorld (askBody h g) in onWorld (updBody h (F t))) s
  = onWorld (updBody h (fun b => F (g b) b)) s.
Proof.
  destruct s as [c w]. unfold bind, onWorld, askBody, updBody. simpl.
  destruct (bodies w !! h) as [b |] eqn:E; simpl; rewrite ?E; reflexivity.
Qed.

Lemma bodySetter_ext (f g : RigidBody -> RigidBody) (s : St) :
  (forall b, f b = g b) -> bodySetter R opts f s = bodySetter R opts g s.
Proof.
  intros H. unfold bodySetter. rewrite !member_eq.
  destruct (ensureBody R opts s) as [[[] | e] s1]; [| reflexivity].
  destruct (rbody (comp s1)) as [h |]; [| reflexivity].
  unfold onWorld, updBody.
  destruct (bodies (world s1) !! h) as [b |]; [| reflexivity].
  now rewrite H.
Qed.

(** Two updates in a row are the update by the composed function. *)
Lemma bodySetter_seq (f g : RigidBody -> RigidBody) (s : St) :
  (bodySetter R opts f ;; bodySetter R opts g) s
  = bodySetter R opts (fun b => g (f b)) s.
Proof.
  rewrite seq_eq. unfold bodySetter at 1 3. rewrite !member_eq.
  destruct (ensureBody R opts s) as [[[] | e] [c w]] eqn:He; [| reflexivity].
  destruct (ensureBody_Done R opts s _ He) as [h Hr]. simpl in Hr. simpl comp.
  rewrite Hr. unfold onWorld at 1 2, updBody at 1 2. simpl world.
  destruct (bodies w !! h) as [b |] eqn:Hb; [| reflexivity].
  unfold bodySetter, set_world, set_bodies. simpl.
  rewrite (member_created _ c _ h Hr).
  unfold onWorld, updBody. simpl. rewrite lookup_insert_eq.
  unfold set_world, set_bodies. simpl. now rewrite insert_insert_eq.
Qed.

Lemma translateX_setter (x : Q) (s : St) :
  translateX R opts x s
  = bodySetter R opts
      (fun b => wake true (with_translation (vec2 x (vy (rb_translation b))) b)) s.
Proof.
  unfold translateX, bodySetter. rewrite !member_eq.
  destruct (ensureBody R opts s) as [[[] | e] s1]; [| reflexivity].
  destruct (rbody (comp s1)) as [h |]; [| reflexivity].
  apply (ask_then_upd h rb_translation
           (fun t b => wake true (with_translation (vec2 x (vy t)) b))).
Qed.

Lemma translateY_setter (y : Q) (s : St) :
  translateY R opts y s
  = bodySetter R opts
      (fun b => wake true (with_translation (vec2 (vx (rb_translation b)) y) b)) s.
Proof.
  unfold translateY, bodySetter. rewrite !member_eq.
  destruct (ensureBody R opts s) as [[[] | e] s1]; [| reflexivity].
  destruct (rbody (comp s1)) as [h |]; [| reflexivity].
  apply (ask_then_upd h rb_translation
           (fun t b => wake true (with_translation (vec2 (vx t) y) b))).
Qed.

(** A sequence of two members that are updates, rewritten member by
    member. *)
Lemma seq_congr {A B : Type} (m1 m1' : M St A) (m2 m2' : M St B) (s : St) :
  (forall s, m1 s = m1' s) -> (forall s, m2 s = m2' s) ->
  (m1 ;; m2) s = (m1' ;; m2') s.
Proof.
  intros H1 H2. rewrite !seq_eq, H1.
  destruct (m1' s) as [[a | e] s1]; [apply H2 | reflexivity].
Qed.

(** X12: locking is idempotent and the two locks do not interfere:
    [lockPosition(l)] twice is [lockPosition(l)] once, likewise
    [lockRotation], and the two can be called in either order with the
    same result, whatever the state. *)
Theorem X12_locks_compose (l1 l2 : option bool) (s : St) :
  (lockPosition R opts l1 ;; lockPosition R opts l1) s = lockPosition R opts l1 s /\
  (lockRotation R opts l2 ;; lockRotation R opts l2) s = lockRotation R opts l2 s /\
  (lockPosition R opts l1 ;; lockRotation R opts l2) s
  = (lockRotation R opts l2 ;; lockPosition R opts l1) s.
Proof.
  change (lockPosition R opts l1)
    with (bodySetter R opts (fun b => wake true (with_lockTranslations (l1 ?? true) b))).
  change (lockRotation R opts l2)
    with (bodySetter R opts (fun b => wake true (with_lockRotations (l2 ?? true) b))).
  rewrite !bodySetter_seq.
  repeat split; apply bodySetter_ext; reflexivity.
Qed.

(** X13: [translateX(x)] followed by [translateY(y)], in either order, is
    [translate(x, y)], whatever the state. *)
Theorem X13_translate_by_axes (x y : Q) (s : St) :
  (translateX R opts x ;; translateY R opts y) s = translate R opts (ArgsXY x y) s /\
  (translateY R opts y ;; translateX R opts x) s = translate R opts (ArgsXY x y) s.
Proof.
  change (translate R opts (ArgsXY x y))
    with (bodySetter R opts (fun b => wake true (with_translation (vec2 x y) b))).
  split.
  - rewrite (seq_congr _ _ _ _ s (translateX_setter x) (translateY_setter y)).
    rewrite bodySetter_seq. apply bodySetter_ext. reflexivity.
  - rewrite (seq_congr _ _ _ _ s (translateY_setter y) (translateX_setter x)).
    rewrite bodySetter_seq. apply bodySetter_ext. reflexivity.
Qed.

(** X14: for the position, the velocity and the gravity scale the last
    assignment wins, and assignments to different ones of the three can
    be made in either order with the same result, whatever the state. *)
Theorem X14_assignments_compose (a1 a2 : Vec2Args) (v1 v2 : Vec2) (g1 g2 : Q)
    (s : St) :
  (translate R opts a1 ;; translate R opts a2) s = translate R opts a2 s /\
  (set_velocity R opts v1 ;; set_velocity R opts v2) s = set_velocity R opts v2 s /\
  (set_gravityScale R opts g1 ;; set_gravityScale R opts g2) s
  = set_gravityScale R opts g2 s /\
  (translate R opts a1 ;; set_velocity R opts v1) s
  = (set_velocity R opts v1 ;; translate R opts a1) s /\
  (translate R opts a1 ;; set_gravityScale R opts g1) s
  = (set_gravityScale R opts g1 ;; translate R opts a1) s /\
  (set_velocity R opts v1 ;; set_gravityScale R opts g1) s
  = (set_gravityScale R opts g1 ;; set_velocity R opts v1) s.
Proof.
  change (translate R opts a1)
    with (bodySetter R opts (fun b => wake true (with_translation (k_vec2 a1) b))).
  change (translate R opts a2)
    with (bodySetter R opts (fun b => wake true (with_translation (k_vec2 a2) b))).
  change (set_velocity R opts v1)
    with (bodySetter R opts (fun b => wake true (with_linvel v1 b))).
  change (set_velocity R opts v2)
    with (bodySetter R opts (fun b => wake true (with_linvel v2 b))).
  change (set_gravityScale R opts g1)
    with (bodySetter R opts (fun b => wake true (with_gravityScale g1 b))).
  change (set_gravityScale R opts g2)
    with (bodySetter R opts (fun b => wake true (with_gravityScale g2 b))).
  rewrite !bodySetter_seq.
  repeat split; apply bodySetter_ext; reflexivity.
Qed.

End Composition.

(** ** The frame update of a body *)

Section Update.

Context (R : Engine) (k : KaboomCtx) (opts : option RapierBodyOptions).

(** [ensureBody] does not change what makes the object visible. *)
Lemma ensureBody_isVisible (s : St) :
  isVisibleOf (this (comp (snd (ensureBody R opts s)))) = isVisibleOf (this (comp s)).
Proof.
  destruct (rbody (comp s)) as [h |] eqn:E.
  - now rewrite (ensureBody_created R opts s h E).
  - rewrite (ensureBody_fresh R opts s E).
    destruct (shapeOf R (this (comp s))) as [[d |] | e]; cbn;
      unfold rotated; now destruct (is_rotate (this (comp s))).
Qed.

(** What [update] does once the body is there and alive. *)
Lemma update_run (s s1 : St) (h : nat) (b : RigidBody) :
  ensureBody R opts s = (Done tt, s1) ->
  rbody (comp s1) = Some h ->
  bodies (world s1) !! h = Some b ->
  update R k opts s =
  (Done tt,
   set_this
     (set_angle (k_rad2deg k (eng_angle R (rb_rotation b)))
        (set_pos (translateCenterToAnchor (rb_translation b) (this (comp s1))
                    (isVisibleOf (this (comp s))))
                 (this (comp s1))))
     s1).
Proof.
  intros He Hr Hb. unfold update. unfold bind at 1. unfold gets at 1.
  rewrite (after_ensureBody R opts _ s s1 h He Hr).
  unfold translation, rotation. run_monad. rewrite Hb. cbn. rewrite Hb.
  unfold set_pos, set_angle. cbn.
  now destruct (translateCenterToAnchor _ _ _).
Qed.

(** With the body gone from the world, [update] throws before it writes. *)
Lemma update_dead (s s1 : St) (h : nat) :
  ensureBody R opts s = (Done tt, s1) ->
  rbody (comp s1) = Some h ->
  bodies (world s1) !! h = None ->
  update R k opts s = (Throw TypeError, s1).
Proof.
  intros He Hr Hb. unfold update. unfold bind at 1. unfold gets at 1.
  rewrite (after_ensureBody R opts _ s s1 h He Hr).
  unfold translation. run_monad. rewrite Hb. now destruct s1.
Qed.

(** X15: [update] is the way from the simulation to the object and not
    back: with the body in place it leaves the world and the component's
    body and collider as they are; and once it has succeeded, calling it
    again changes nothing at all. *)
Theorem X15_update_reads_the_world (s : St) :
  (forall h, rbody (comp s) = Some h ->
     world (snd (update R k opts s)) = world s /\
     rbody (comp (snd (update R k opts s))) = Some h /\
     collider (comp (snd (update R k opts s))) = collider (comp s)) /\
  (fst (update R k opts s) = Done tt ->
   update R k opts (snd (update R k opts s)) = (Done tt, snd (update R k opts s))).
Proof.
  split.
  - intros h Hr. pose proof (ensureBody_created R opts s h Hr) as He.
    destruct (bodies (world s) !! h) as [b |] eqn:Hb.
    + rewrite (update_run s s h b He Hr Hb). simpl. repeat split; assumption.
    + rewrite (update_dead s s h He Hr Hb). simpl. repeat split; assumption.
  - intros Hd.
    destruct (ensureBody R opts s) as [[[] | e] s1] eqn:He.
    + destruct (ensureBody_Done R opts s s1 He) as [h Hr].
      pose proof (ensureBody_isVisible s) as Hv. rewrite He in Hv. simpl in Hv.
      destruct (bodies (world s1) !! h) as [b |] eqn:Hb.
      * rewrite (update_run s s1 h b He Hr Hb). simpl.
        erewrite update_run;
          [| apply (ensureBody_created R opts _ h); exact Hr | exact Hr | exact Hb].
        simpl. unfold set_this, set_pos, set_angle, isVisibleOf,
          translateCenterToAnchor, anchorOf, getDefaultAnchorFor, renderAreaOf.
        simpl. unfold isVisibleOf in Hv. rewrite Hv. reflexivity.
      * rewrite (update_dead s s1 h He Hr Hb) in Hd. discriminate.
    + exfalso. revert Hd. unfold update, bind, gets. simpl. rewrite He.
      discriminate.
Qed.

(** X16: the first [update] of an object that is not a polygon creates the
    body and leaves the object where it is: it succeeds, and the position
    it writes equals the position the object had. *)
Theorem X16_first_update_keeps_position (s : St) :
  rbody (comp s) = None ->
  is_polygon (this (comp s)) = false ->
  fst (update R k opts s) = Done tt /\
  pos (this (comp (snd (update R k opts s)))) =v= pos (this (comp s)).
Proof.
  intros Hfresh Hp.
  pose proof (ensureBody_fresh R opts s Hfresh) as He.
  assert (exists s1 b,
            ensureBody R opts s = (Done tt, s1) /\
            rbody (comp s1) = Some (next_handle (world s)) /\
            bodies (world s1) !! next_handle (world s) = Some b /\
            this (comp s1) = rotated (this (comp s)) /\
            rb_translation b
            = translateAnchorToCenter (rotated (this (comp s)))
                (isVisibleOf (rotated (this (comp s))))) as (s1 & b & H1 & H2 & H3 & H4 & H5).
  { unfold shapeOf in He. rewrite Hp in He.
    destruct (is_rect (this (comp s))); [| destruct (is_circle (this (comp s)))];
      eexists _, _; (split; [exact He |]); cbn; rewrite lookup_insert_eq;
      repeat split. }
  rewrite (update_run s s1 _ b H1 H2 H3). simpl. split; [reflexivity |].
  rewrite H4, H5.
  assert (isVisibleOf (rotated (this (comp s))) = isVisibleOf (this (comp s))) as ->.
  { unfold rotated. now destruct (is_rotate (this (comp s))). }
  assert (pos (this (comp s)) = pos (rotated (this (comp s)))) as ->.
  { unfold rotated. now destruct (is_rotate (this (comp s))). }
  apply roundtrip_not_polygon.
  unfold rotated. now destruct (is_rotate (this (comp s))).
Qed.

End Update.

Lemma X15_witness :
  (rbody (comp playerCreated) = Some 0%nat /\
   world (snd (update plainEngine plainCtx None playerCreated)) = world playerCreated) /\
  (fst (update plainEngine plainCtx None playerCreated) = Done tt /\
   update plainEngine plainCtx None (snd (update plainEngine plainCtx None playerCreated))
     = (Done tt, snd (update plainEngine plainCtx None playerCreated))).
Proof.
  assert (fst (update plainEngine plainCtx None playerCreated) = Done tt) as H
    by (vm_compute; reflexivity).
  split.
  - split; [reflexivity |].
    exact (proj1 (proj1 (X15_update_reads_the_world plainEngine plainCtx None
                           playerCreated) 0%nat eq_refl)).
  - split; [exact H |].
    exact (proj2 (X15_update_reads_the_world plainEngine plainCtx None playerCreated) H).
Defined.

Lemma X16_witness :
  rbody (comp (fresh None box emptyWorld)) = None /\
  is_polygon (this (comp (fresh None box emptyWorld))) = false /\
  fst (update plainEngine plainCtx None (fresh None box emptyWorld)) = Done tt /\
  pos (this (comp (snd (update plainEngine plainCtx None (fresh None box emptyWorld)))))
    =v= pos (this (comp (fresh None box emptyWorld))).
Proof.
  split; [reflexivity |]. split; [reflexivity |].
  exact (X16_first_update_keeps_position plainEngine plainCtx None
           (fresh None box emptyWorld) eq_refl eq_refl).
Defined.

(** ** After [destroy] *)

Section Destroyed.

Context (R : Engine) (k : KaboomCtx) (opts : option RapierBodyOptions).

(** X18: once the body is gone from the world (as after [destroy]) the
    component does not make another: every member that touches the body
    throws and leaves the state as it is, while [getRigidBody] still hands
    out the old handle. *)
Theorem X18_use_after_destroy (s : St) (h : nat) (t : Vec2) (v : Q) :
  rbody (comp s) = Some h ->
  bodies (world s) !! h = None ->
  (forall op,
     match op with
     | OpDestroy | OpGetRigidBody | OpProxySet _ _ _ => True
     | _ => exec R k opts op s = (Throw TypeError, s)
     end) /\
  getRigidBody R opts s = (Done h, s) /\
  proxy_set (mkVelocityProxy t h) "x" v s = (Throw TypeError, s) /\
  proxy_set (mkVelocityProxy t h) "y" v s = (Throw TypeError, s).
Proof.
  intros Hr Hb.
  pose proof (ensureBody_created R opts s h Hr) as He.
  assert (getRigidBody R opts s = (Done h, s)) as Hrb.
  { unfold getRigidBody, bind at 1. rewrite He.
    unfold the_rbody, bind, gets, ret. simpl. now rewrite Hr. }
  assert (isGrounded R opts s = (Throw TypeError, s)) as Hg.
  { unfold isGrounded. rewrite (after_ensureBody R opts _ s s h He Hr).
    unfold renderArea, translation, bind at 1, gets at 1.
    destruct (isVisibleOf (this (comp s)));
      run_monad; rewrite ?Hb; now destruct s. }
  split; [| split; [exact Hrb | split]].
  - intros op.
    destruct op; try exact I; unfold exec, discard;
      try (rewrite seq_eq);
      unfold get_bounciness, set_bounciness, get_mass, set_mass,
        get_gravityScale, set_gravityScale, get_velocity, set_velocity, jump,
        lockPosition, lockRotation, addForce, applyImpulse, applyTorqueImpulse,
        translate, translateX, translateY;
      rewrite ?(after_ensureBody R opts _ s s h He Hr);
      unfold colliderAt, translation, linvel, gravityScaleOf, lockTranslations,
        lockRotations;
      try (run_monad; rewrite Hb; now destruct s).
    + now rewrite Hg.
    + unfold isFalling, bind. now rewrite Hg.
    + apply (update_dead R k opts s s h He Hr Hb).
    + unfold inspect, bind at 1. rewrite Hrb.
      unfold linvel. run_monad. rewrite Hb. now destruct s.
  - unfold proxy_set, linvel. run_monad. rewrite Hb. now destruct s.
  - unfold proxy_set, linvel. run_monad. rewrite Hb. now destruct s.
Qed.

(** X19: [destroy] removes nothing but its own: when the component's
    collider hangs on the component's body, every other body of the world
    is as it was; and of the joints exactly those that touch the body are
    gone. *)
Theorem X19_destroy_leaves_the_rest (s : St) (h c : nat) (b : RigidBody) :
  rbody (comp s) = Some h ->
  collider (comp s) = Some c ->
  bodies (world s) !! h = Some b ->
  (forall co, colliders (world s) !! c = Some co -> co_parent co = h) ->
  (forall h', h' <> h ->
     bodies (world (snd (destroy s))) !! h' = bodies (world s) !! h') /\
  (forall j b1 b2,
     joints (world (snd (destroy s))) !! j = Some (b1, b2) <->
     joints (world s) !! j = Some (b1, b2) /\ b1 <> h /\ b2 <> h).
Proof.
  intros Hr Hc Hb Hpar. rewrite destroy_eq, Hr, Hc. simpl.
  assert (exists b', bodies (removeCollider c false (world s)) !! h = Some b' /\
                     joints (removeCollider c false (world s)) = joints (world s) /\
                     forall h', h' <> h ->
                       bodies (removeCollider c false (world s)) !! h'
                       = bodies (world s) !! h') as (b' & Hb' & Hj & Hrest).
  { unfold removeCollider.
    destruct (colliders (world s) !! c) as [co |] eqn:Hco.
    - rewrite (Hpar co eq_refl). simpl.
      exists (wake false (detach c b)). split; [| split; [reflexivity |]].
      + rewrite lookup_alter_eq, Hb. reflexivity.
      + intros h' Hne. now rewrite lookup_alter_ne.
    - exists b. split; [exact Hb | split; [reflexivity | reflexivity]]. }
  unfold removeRigidBody. rewrite Hb'. simpl. split.
  - intros h' Hne. rewrite lookup_delete_ne by congruence. now apply Hrest.
  - intros j b1 b2. rewrite Hj. rewrite map_lookup_filter_Some. simpl.
    tauto.
Qed.

End Destroyed.

Lemma X18_witness :
  rbody (comp playerDestroyed) = Some 0%nat /\
  bodies (world playerDestroyed) !! 0%nat = None /\
  exec plainEngine plainCtx None (OpJump None) playerDestroyed
    = (Throw TypeError, playerDestroyed) /\
  getRigidBody plainEngine None playerDestroyed = (Done 0%nat, playerDestroyed).
Proof.
  assert (bodies (world playerDestroyed) !! 0%nat = None) as Hb
    by (vm_compute; reflexivity).
  split; [reflexivity |]. split; [exact Hb |].
  pose proof (X18_use_after_destroy plainEngine plainCtx None playerDestroyed 0%nat
                (vec2 0 0) 0 eq_refl Hb) as (H1 & H2 & _).
  exact (conj (H1 (OpJump None)) H2).
Defined.

Lemma X19_witness :
  rbody (comp playerCreated) = Some 0%nat /\
  collider (comp playerCreated) = Some 1%nat /\
  bodies (world playerCreated) !! 0%nat = Some playerBody /\
  (forall co, colliders (world playerCreated) !! 1%nat = Some co -> co_parent co = 0%nat) /\
  (forall h', h' <> 0%nat ->
     bodies (world (snd (destroy playerCreated))) !! h'
     = bodies (world playerCreated) !! h').
Proof.
  assert (forall co, colliders (world playerCreated) !! 1%nat = Some co
                     -> co_parent co = 0%nat) as Hpar.
  { intros co H. vm_compute in H. injection H as <-. reflexivity. }
  split; [reflexivity |]. split; [reflexivity |].
  split; [exact (proj2 (proj2 playerCreated_body)) |]. split; [exact Hpar |].
  exact (proj1 (X19_destroy_leaves_the_rest playerCreated 0%nat 1%nat playerBody
                  eq_refl eq_refl (proj2 (proj2 playerCreated_body)) Hpar)).
Defined.

(** ** The velocity proxy *)

(** X20: writing both components through the proxy, in either order, sets
    the body's velocity as one assignment of the whole vector does, and the
    proxy ends up holding that vector. *)
Theorem X20_proxy_writes_compose (pr : VelocityProxy) (a b : Q) (s : St)
    (body : RigidBody) :
  bodies (world s) !! _body pr = Some body ->
  (let* p1 := proxy_set pr "x" a in proxy_set p1 "y" b) s
  = (Done (mkVelocityProxy (vec2 a b) (_body pr)),
     snd (onWorld (setLinvel (_body pr) (vec2 a b) true) s)) /\
  (let* p1 := proxy_set pr "y" b in proxy_set p1 "x" a) s
  = (Done (mkVelocityProxy (vec2 a b) (_body pr)),
     snd (onWorld (setLinvel (_body pr) (vec2 a b) true) s)).
Proof.
  intros Hb. destruct s as [c w]. simpl in Hb.
  unfold proxy_set, linvel. run_monad. rewrite Hb. cbn. rewrite !Hb. cbn.
  rewrite !lookup_insert_eq. cbn. rewrite !lookup_insert_eq. cbn.
  rewrite !insert_insert_eq. split; reflexivity.
Qed.

Lemma X20_witness :
  bodies (world playerCreated) !! _body (mkVelocityProxy (vec2 0 0) 0) = Some playerBody /\
  (let* p1 := proxy_set (mkVelocityProxy (vec2 0 0) 0) "x" 3 in proxy_set p1 "y" 4)
    playerCreated
  = (Done (mkVelocityProxy (vec2 3 4) 0),
     snd (onWorld (setLinvel 0 (vec2 3 4) true) playerCreated)).
Proof.
  split; [exact (proj2 (proj2 playerCreated_body)) |].
  exact (proj1 (X20_proxy_writes_compose (mkVelocityProxy (vec2 0 0) 0) 3 4
                  playerCreated playerBody (proj2 (proj2 playerCreated_body)))).
Defined.

(** ** Joints *)

Section JointMore.

Context (R : Engine).

(** [getRigidBody] on an object of the scene whose body exists. *)
Lemma onObj_getRigidBody_created (sc : Scene) (id : nat) (e : Entity) (b : nat) :
  sc_objs sc !! id = Some e ->
  rbody (ent_comp e) = Some b ->
  onObj id (fun o => getRigidBody R o) sc = (Done b, sc).
Proof.
  intros He Hr. unfold onObj. rewrite He.
  unfold getRigidBody, bind at 1.
  rewrite (ensureBody_created R (ent_opts e) (mkSt (ent_comp e) (sc_world sc)) b Hr).
  unfold the_rbody, bind, gets, ret. simpl. rewrite Hr.
  destruct sc as [objs w], e as [o c]. simpl in *.
  now rewrite insert_id.
Qed.

(** X21: asking an object of the scene for its body a second time gives
    the same body and changes nothing; so a joint whose two parents are
    the same object creates one body, not two, and connects it with
    itself. *)
Theorem X21_same_parent_same_body (sc sc1 : Scene) (id b : nat) :
  onObj id (fun o => getRigidBody R o) sc = (Done b, sc1) ->
  onObj id (fun o => getRigidBody R o) sc1 = (Done b, sc1) /\
  forall j,
    rapierJoint R (mkRapierJointOptions j id id) sc
    = onSceneWorld (createImpulseJoint R (jointParams j) b b true) sc1.
Proof.
  intros H.
  assert (onObj id (fun o => getRigidBody R o) sc1 = (Done b, sc1)) as H2.
  { revert H. unfold onObj at 1.
    destruct (sc_objs sc !! id) as [e |] eqn:He; [| discriminate].
    destruct (getRigidBody R (ent_opts e) (mkSt (ent_comp e) (sc_world sc)))
      as [[b' | ex] s1] eqn:Hg; [| discriminate].
    assert (rbody (comp s1) = Some b') as Hr.
    { revert Hg. unfold getRigidBody, the_rbody, bind, gets, ret.
      destruct (ensureBody R (ent_opts e) _) as [[[] | ex] s2]; [| discriminate].
      simpl. destruct (rbody (comp s2)) eqn:E; [| discriminate].
      intros [= -> ->]. exact E. }
    intros [= -> <-].
    apply (onObj_getRigidBody_created _ id (mkEntity (ent_opts e) (comp s1)) b);
      [apply lookup_insert_eq | exact Hr]. }
  split; [exact H2 |].
  intros j. unfold rapierJoint, bind. simpl. now rewrite H, H2.
Qed.

(** X22: when both parents have their bodies, [rapierJoint] creates no
    body and changes no object: it is the engine's joint call on the two
    bodies with the description of the options, woken up, and nothing
    else. *)
Theorem X22_joint_of_created_bodies (opts : RapierJointOptions) (sc : Scene)
    (e1 e2 : Entity) (b1 b2 : nat) :
  sc_objs sc !! parent1 opts = Some e1 ->
  sc_objs sc !! parent2 opts = Some e2 ->
  rbody (ent_comp e1) = Some b1 ->
  rbody (ent_comp e2) = Some b2 ->
  rapierJoint R opts sc
  = onSceneWorld (createImpulseJoint R (jointParams (joint opts)) b1 b2 true) sc.
Proof.
  intros H1 H2 Hr1 Hr2. unfold rapierJoint, bind.
  rewrite (onObj_getRigidBody_created sc _ e1 b1 H1 Hr1).
  now rewrite (onObj_getRigidBody_created sc _ e2 b2 H2 Hr2).
Qed.

End JointMore.

(** X23: leaving an anchor out of the joint options is the same as giving
    the zero vector, and leaving a frame out the same as giving 0, for every
    kind of joint. *)
Theorem X23_joint_defaults (j : RapierJointDataOptions) :
  jointParams j =
  jointParams
    (mkRapierJointDataOptions (jo_type j)
       (Some (jo_frame1 j ?? 0)) (Some (jo_frame2 j ?? 0))
       (Some (jo_anchor1 j ?? ZERO)) (Some (jo_anchor2 j ?? ZERO))
       (jo_axis j) (jo_length j) (jo_restLength j) (jo_stiffness j) (jo_damping j)).
Proof.
  unfold jointParams. simpl.
  repeat (destruct (String.eqb (jo_type j) _); [reflexivity |]).
  reflexivity.
Qed.

Lemma X21_witness :
  onObj 0 (fun o => getRigidBody plainEngine o) dragScene = (Done 0%nat, dragScene1) /\
  onObj 0 (fun o => getRigidBody plainEngine o) dragScene1 = (Done 0%nat, dragScene1).
Proof.
  split; [exact (proj1 dragScene_bodies) |].
  exact (proj1 (X21_same_parent_same_body plainEngine dragScene dragScene1 0%nat 0%nat
                  (proj1 dragScene_bodies))).
Defined.

Lemma dragScene2_objs :
  sc_objs dragScene2 !! 0%nat
    = Some (mkEntity None (comp (snd (ensureBody plainEngine None
                                         (fresh None disc emptyWorld))))) /\
  sc_objs dragScene2 !! 1%nat
    = Some (mkEntity None
              (mkBodyComp (rotated shapeless) (Some 2%nat) None 100)).
Proof. split; vm_compute; reflexivity. Qed.

Lemma X22_witness :
  sc_objs dragScene2 !! parent1 springOptions
    = Some (mkEntity None (comp (snd (ensureBody plainEngine None
                                         (fresh None disc emptyWorld))))) /\
  sc_objs dragScene2 !! parent2 springOptions
    = Some (mkEntity None (mkBodyComp (rotated shapeless) (Some 2%nat) None 100)) /\
  rapierJoint plainEngine springOptions dragScene2
  = onSceneWorld
      (createImpulseJoint plainEngine (jointParams (joint springOptions)) 0 2 true)
      dragScene2.
Proof.
  split; [exact (proj1 dragScene2_objs) |]. split; [exact (proj2 dragScene2_objs) |].
  exact (X22_joint_of_created_bodies plainEngine springOptions dragScene2 _ _ 0%nat 2%nat
           (proj1 dragScene2_objs) (proj2 dragScene2_objs) eq_refl eq_refl).
Defined.

(** ** More on the fixed-step loop *)

Section SteppingMore.

Context (R : Engine) (opts : option RapierPluginOptions).

Local Abbreviation STEP := (PHYSICS_STEP opts).

(** With an interval that is not positive the loop, once entered with a
    non-negative accumulator, uses up every bound. *)
Lemma stepLoop_never_ends (fuel : nat) :
  forall (w : World) (s : Stepper),
    STEP <= 0 -> 0 <= acc s -> stepLoop R opts fuel w s = None.
Proof.
  induction fuel as [| fuel IH]; intros w s Hstep Hacc; simpl;
    destruct (Qle_bool STEP (acc s)) eqn:E.
  - reflexivity.
  - exfalso. assert (STEP <= acc s) as H by lra.
    apply Qle_bool_iff in H. congruence.
  - apply IH; [exact Hstep | simpl; lra].
  - exfalso. assert (STEP <= acc s) as H by lra.
    apply Qle_bool_iff in H. congruence.
Qed.

(** X24: with the world loaded and a step interval of zero or less
    ([physicsStep: 0], say), a frame never finishes: whatever bound is put
    on the loop, the loop exhausts it. *)
Theorem X24_nonpositive_interval_hangs (fuel : nat) (f : Frame) (w : World)
    (s : Stepper) :
  STEP <= 0 ->
  0 <= acc s + dt f * 1000 ->
  onUpdate R opts fuel f (Some w) s = None.
Proof.
  intros Hstep Hacc. unfold onUpdate.
  now rewrite stepLoop_never_ends.
Qed.

(** The whole part of a quotient, from the two bounds. *)
Lemma Qfloor_between (q : Q) (d : Z) :
  inject_Z d <= q -> q < inject_Z (d + 1) -> Qfloor q = d.
Proof.
  intros Hle Hlt.
  pose proof (Qfloor_le q) as H1. pose proof (Qlt_floor q) as H2.
  assert (inject_Z (Qfloor q) < inject_Z (d + 1)) as H3 by lra.
  assert (inject_Z d < inject_Z (Qfloor q + 1)) as H4 by lra.
  rewrite <- Zlt_Qlt in H3, H4. lia.
Qed.

(** X25: a frame makes as many steps as whole intervals fit into the
    accumulator plus the frame's time, and carries the rest: with a
    positive interval the frame finishes under some bound, raises the step
    count by the whole part of (acc + dt * 1000) / interval, and leaves
    the remainder in the accumulator; when less than one interval has
    gathered it makes no step and only writes the gravity. *)
Theorem X25_steps_of_a_frame (f : Frame) (w : World) (s : Stepper) :
  0 < STEP -> 0 <= dt f -> 0 <= acc s -> acc s < STEP ->
  exists fuel w' s',
    onUpdate R opts fuel f (Some w) s = Some (Some w', s') /\
    updateCount s' = (updateCount s + Qfloor ((acc s + dt f * 1000) / STEP))%Z /\
    acc s' == acc s + dt f * 1000
              - inject_Z (Qfloor ((acc s + dt f * 1000) / STEP)) * STEP /\
    (acc s + dt f * 1000 < STEP ->
     updateCount s' = updateCount s /\
     w' = set_gravity (vec2 (vx (gravity w)) (getGravity f)) w).
Proof.
  intros Hpos Hdt H0 H1.
  assert (0 <= dt f * 1000) as Hdt' by lra.
  destruct (enough_fuel opts (dt f * 1000) Hpos Hdt') as [fuel Hfuel].
  destruct (onUpdate_spec R opts fuel f w s Hpos Hdt H0 H1 Hfuel)
    as (w' & s' & Hrun & Hacc & Ha & Hb).
  destruct (onUpdate_steps R opts fuel f w w' s s' Hrun) as [Hmono Hw].
  exists fuel, w', s'. split; [exact Hrun |].
  unfold simulatedMillis in Hacc.
  set (d := (updateCount s' - updateCount s)%Z) in *.
  assert (inject_Z d * STEP + acc s' == acc s + dt f * 1000) as Hd.
  { unfold d, Z.sub. rewrite inject_Z_plus, inject_Z_opp. lra. }
  assert (Qfloor ((acc s + dt f * 1000) / STEP) = d) as Hfl.
  { apply Qfloor_between.
    - apply Qle_shift_div_l; [exact Hpos | lra].
    - apply Qlt_shift_div_r; [exact Hpos |].
      rewrite inject_Z_plus. change (inject_Z 1) with 1. lra. }
  rewrite Hfl. split; [unfold d; lia |]. split; [lra |].
  intros Hsmall.
  assert (d = 0%Z) as Hd0.
  { assert (inject_Z d * STEP < 1 * STEP) as Hlt by lra.
    assert (inject_Z d < 1) as Hlt'.
    { apply (Qmult_lt_r _ _ STEP Hpos). exact Hlt. }
    change 1 with (inject_Z 1) in Hlt'. rewrite <- Zlt_Qlt in Hlt'.
    unfold d in *. lia. }
  split; [unfold d in Hd0; lia |].
  rewrite Hw. fold d. now rewrite Hd0.
Qed.

(** X26: the time that passes before [load] is dropped, not made up for:
    frames that come while the world is missing leave the accumulator and
    the step count as they are, so the run after [load] goes on as if they
    had not been. *)
Theorem X26_frames_before_load (fuel : nat) (fs0 fs : list Frame) (s : Stepper) :
  onUpdates R opts fuel fs0 None s = Some (None, s) /\
  match onUpdates R opts fuel fs0 None s with
  | Some (_, s0) => onUpdates R opts fuel fs load s0
  | None => None
  end = onUpdates R opts fuel fs load s.
Proof.
  pose proof (onUpdates_unloaded R opts fuel fs0 s) as H.
  split; [exact H | now rewrite H].
Qed.

(** X27: how the elapsed time is cut into frames does not matter for the
    stepping: two runs of frames with the same total time, started from
    rest with the world loaded, end with the same step count and the same
    accumulator. *)
Theorem X27_frame_rate_independence (fs1 fs2 : list Frame) (w1 w2 : World) :
  0 < STEP ->
  Forall (fun f => 0 <= dt f) fs1 ->
  Forall (fun f => 0 <= dt f) fs2 ->
  elapsedMillis fs1 == elapsedMillis fs2 ->
  exists fuel w1' s1 w2' s2,
    onUpdates R opts fuel fs1 (Some w1) initialStepper = Some (Some w1', s1) /\
    onUpdates R opts fuel fs2 (Some w2) initialStepper = Some (Some w2', s2) /\
    updateCount s1 = updateCount s2 /\
    acc s1 == acc s2.
Proof.
  intros Hpos Hall1 Hall2 Heq.
  destruct (enough_fuel opts (elapsedMillis fs1) Hpos (elapsedMillis_nonneg fs1 Hall1))
    as [fuel Hfuel].
  assert (0 <= acc initialStepper) as Hi0 by (simpl; lra).
  assert (acc initialStepper < STEP) as Hi1 by (simpl; lra).
  destruct (onUpdates_spec R opts fuel fs1 w1 initialStepper Hpos Hall1 Hi0 Hi1 Hfuel)
    as (w1' & s1 & Hrun1 & Hacc1 & Ha1 & Hb1).
  assert (STEP + elapsedMillis fs2 <= inject_Z (Z.of_nat (S fuel)) * STEP) as Hfuel2
    by (rewrite <- Heq; exact Hfuel).
  destruct (onUpdates_spec R opts fuel fs2 w2 initialStepper Hpos Hall2 Hi0 Hi1 Hfuel2)
    as (w2' & s2 & Hrun2 & Hacc2 & Ha2 & Hb2).
  exists fuel, w1', s1, w2', s2.
  split; [exact Hrun1 |]. split; [exact Hrun2 |].
  unfold simulatedMillis in Hacc1, Hacc2. simpl in Hacc1, Hacc2.
  assert (inject_Z (updateCount s1) * STEP + acc s1
          == inject_Z (updateCount s2) * STEP + acc s2) as Hsame by lra.
  assert (updateCount s1 = updateCount s2) as Hc.
  { assert ((inject_Z (updateCount s1) - inject_Z (updateCount s2)) * STEP < 1 * STEP)
      as Hlt by lra.
    assert ((inject_Z (updateCount s2) - inject_Z (updateCount s1)) * STEP < 1 * STEP)
      as Hgt by lra.
    apply (proj1 (Qmult_lt_r _ _ STEP Hpos)) in Hlt.
    apply (proj1 (Qmult_lt_r _ _ STEP Hpos)) in Hgt.
    assert (inject_Z (updateCount s1) < inject_Z (updateCount s2 + 1)) as H1
      by (rewrite inject_Z_plus; change (inject_Z 1) with 1; lra).
    assert (inject_Z (updateCount s2) < inject_Z (updateCount s1 + 1)) as H2
      by (rewrite inject_Z_plus; change (inject_Z 1) with 1; lra).
    rewrite <- Zlt_Qlt in H1, H2. lia. }
  split; [exact Hc |]. rewrite Hc in Hsame. lra.
Qed.

End SteppingMore.

Lemma X24_witness :
  PHYSICS_STEP zeroStep <= 0 /\
  0 <= acc initialStepper + dt slowFrame * 1000 /\
  onUpdate plainEngine zeroStep 1000 slowFrame (Some emptyWorld) initialStepper = None.
Proof.
  assert (PHYSICS_STEP zeroStep <= 0) as H1 by (simpl; discriminate).
  assert (0 <= acc initialStepper + dt slowFrame * 1000) as H2 by (simpl; discriminate).
  split; [exact H1 |]. split; [exact H2 |].
  exact (X24_nonpositive_interval_hangs plainEngine zeroStep 1000 slowFrame emptyWorld
           initialStepper H1 H2).
Defined.

Lemma X25_witness :
  0 < PHYSICS_STEP None /\ 0 <= dt slowFrame /\
  0 <= acc initialStepper /\ acc initialStepper < PHYSICS_STEP None /\
  exists fuel w' s',
    onUpdate plainEngine None fuel slowFrame (Some emptyWorld) initialStepper
      = Some (Some w', s') /\
    updateCount s'
      = (updateCount initialStepper
         + Qfloor ((acc initialStepper + dt slowFrame * 1000) / PHYSICS_STEP None))%Z.
Proof.
  assert (0 < PHYSICS_STEP None) as H1 by reflexivity.
  assert (0 <= dt slowFrame) as H2 by (simpl; discriminate).
  assert (0 <= acc initialStepper) as H3 by (simpl; discriminate).
  assert (acc initialStepper < PHYSICS_STEP None) as H4 by reflexivity.
  split; [exact H1 |]. split; [exact H2 |]. split; [exact H3 |]. split; [exact H4 |].
  destruct (X25_steps_of_a_frame plainEngine None slowFrame emptyWorld initialStepper
              H1 H2 H3 H4) as (fuel & w' & s' & Hrun & Hc & _).
  exists fuel, w', s'. split; assumption.
Defined.

Lemma X27_witness :
  0 < PHYSICS_STEP None /\
  Forall (fun f => 0 <= dt f) threeFrames /\
  Forall (fun f => 0 <= dt f) (mkFrame (20 # 1000) 0 :: nil) /\
  elapsedMillis threeFrames == elapsedMillis (mkFrame (20 # 1000) 0 :: nil) /\
  exists fuel w1' s1 w2' s2,
    onUpdates plainEngine None fuel threeFrames (Some emptyWorld) initialStepper
      = Some (Some w1', s1) /\
    onUpdates plainEngine None fuel (mkFrame (20 # 1000) 0 :: nil) (Some emptyWorld)
      initialStepper = Some (Some w2', s2) /\
    updateCount s1 = updateCount s2 /\
    acc s1 == acc s2.
Proof.
  assert (0 < PHYSICS_STEP None) as H1 by reflexivity.
  assert (Forall (fun f => 0 <= dt f) threeFrames) as H2
    by (repeat constructor; simpl; discriminate).
  assert (Forall (fun f => 0 <= dt f) (mkFrame (20 # 1000) 0 :: nil)) as H3
    by (repeat constructor; simpl; discriminate).
  assert (elapsedMillis threeFrames == elapsedMillis (mkFrame (20 # 1000) 0 :: nil))
    as H4 by reflexivity.
  split; [exact H1 |]. split; [exact H2 |]. split; [exact H3 |]. split; [exact H4 |].
  exact (X27_frame_rate_independence plainEngine None threeFrames _ emptyWorld emptyWorld
           H1 H2 H3 H4).
Defined.

(** ** The inspector overlay *)

(** X28: [drawInspectText] leaves the transform and the stack of saved
    transforms as it found them, and draws exactly two things after what was
    drawn before: a box, and on it the text, 8 in from the box's left and
    upper edge; the box is 16 wider and 16 higher than the text. *)
Theorem X28_overlay_draws_a_box (k : Screen) (p : Vec2) (txt : string) (g : Gfx) :
  transform (drawInspectText k p txt g) = transform g /\
  transformStack (drawInspectText k p txt g) = transformStack g /\
  fst (boxSize k txt) == fst (k_formatText k txt 16) + 16 /\
  snd (boxSize k txt) == snd (k_formatText k txt 16) + 16 /\
  exists o : Vec2,
    drawn (drawInspectText k p txt g) =
    drawn g ++ DrawnRect o (fst (boxSize k txt)) (snd (boxSize k txt))
            :: DrawnText (vec2 (vx o + 8) (vy o + 8)) txt :: nil.
Proof.
  unfold drawInspectText, boxSize. cbn.
  destruct (Qle_bool (k_width k) _), (Qle_bool (k_height k) _); cbn;
    (split; [reflexivity |]); (split; [reflexivity |]);
    (split; [ring |]); (split; [ring |]);
    rewrite <- app_assoc;
    match goal with
    | |- context [DrawnRect ?o _ _] => exists o; reflexivity
    end.
Qed.

(** X29: drawn from the untranslated transform at a point of the screen, the
    box does not reach beyond the right or the lower edge of the screen: it
    is put to the left of the point when it would not fit to the right, and
    above the point when it would not fit below. *)
Theorem X29_overlay_stays_on_screen (k : Screen) (p : Vec2) (txt : string) (g : Gfx) :
  transform g = vec2 0 0 ->
  vx p <= k_width k ->
  vy p <= k_height k ->
  exists o : Vec2,
    In (DrawnRect o (fst (boxSize k txt)) (snd (boxSize k txt)))
       (drawn (drawInspectText k p txt g)) /\
    vx o + fst (boxSize k txt) <= k_width k /\
    vy o + snd (boxSize k txt) <= k_height k /\
    (vx o == vx p \/ vx o + fst (boxSize k txt) == vx p) /\
    (vy o == vy p \/ vy o + snd (boxSize k txt) == vy p).
Proof.
  intros Ht Hx Hy. destruct g as [t st dr]. simpl in Ht. subst t.
  unfold drawInspectText, boxSize. cbn.
  destruct (Qle_bool (k_width k) (vx p + (fst (k_formatText k txt 16) + 8 * 2)))
    eqn:Ex;
  destruct (Qle_bool (k_height k) (vy p + (snd (k_formatText k txt 16) + 8 * 2)))
    eqn:Ey;
    cbn;
    match goal with
    | |- context [DrawnRect ?o _ _] => exists o
    end; (split; [apply in_or_app; left; apply in_or_app; right; left; reflexivity |]);
    cbn.
  all: try (assert (vx p + (fst (k_formatText k txt 16) + 8 * 2) < k_width k) as Hfx
             by (apply Qnot_le_lt; intros Hc; apply Qle_bool_iff in Hc; congruence)).
  all: try (assert (vy p + (snd (k_formatText k txt 16) + 8 * 2) < k_height k) as Hfy
             by (apply Qnot_le_lt; intros Hc; apply Qle_bool_iff in Hc; congruence)).
  all: split; [lra |]; split; [lra |]; split; [first [left; lra | right; lra] |];
    first [left; lra | right; lra].
Qed.

Lemma X29_witness :
  transform blankGfx = vec2 0 0 /\
  vx (inspectTextItem 1) <= k_width smallScreen /\
  vy (inspectTextItem 1) <= k_height smallScreen /\
  exists o : Vec2,
    In (DrawnRect o (fst (boxSize smallScreen "Physics Updates: 0"))
                    (snd (boxSize smallScreen "Physics Updates: 0")))
       (drawn (drawInspectText smallScreen (inspectTextItem 1) "Physics Updates: 0"
                 blankGfx)) /\
    vx o + fst (boxSize smallScreen "Physics Updates: 0") <= k_width smallScreen /\
    vy o + snd (boxSize smallScreen "Physics Updates: 0") <= k_height smallScreen.
Proof.
  assert (vx (inspectTextItem 1) <= k_width smallScreen) as Hx by (simpl; discriminate).
  assert (vy (inspectTextItem 1) <= k_height smallScreen) as Hy by (simpl; discriminate).
  split; [reflexivity |]. split; [exact Hx |]. split; [exact Hy |].
  destruct (X29_overlay_stays_on_screen smallScreen (inspectTextItem 1)
              "Physics Updates: 0" blankGfx eq_refl Hx Hy)
    as (o & H1 & H2 & H3 & _).
  exists o. repeat split; assumption.
Defined.

(** ** Waking the body *)

Section Waking.

Context (R : Engine) (k : KaboomCtx) (opts : option RapierBodyOptions).

(** X30: every member that changes the body's motion wakes it: after a
    successful assignment of [gravityScale] or [velocity], a [jump], a
    lock, a force, an impulse, a torque impulse or a translation the
    component's body is in the world and not asleep. *)
Theorem X30_changes_wake_the_body (op : Op) (s s' : St) :
  exec R k opts op s = (Done tt, s') ->
  match op with
  | OpSetGravityScale _ | OpSetVelocity _ | OpJump _
  | OpLockPosition _ | OpLockRotation _
  | OpAddForce _ | OpApplyImpulse _ | OpApplyTorqueImpulse _
  | OpTranslate _ | OpTranslateX _ | OpTranslateY _ =>
      exists h b,
        rbody (comp s') = Some h /\ bodies (world s') !! h = Some b /\
        rb_sleeping b = false
  | _ => True
  end.
Proof.
  destruct op; try (intros _; exact I); unfold exec;
    unfold set_gravityScale, set_velocity, jump, lockPosition, lockRotation,
      addForce, applyImpulse, applyTorqueImpulse, translate, translateX, translateY;
    intros H; apply member_Done in H as (s1 & h & He & Hr & HK);
    revert HK;
    unfold lockTranslations, lockRotations, translation; run_monad;
    destruct (bodies (world s1) !! h) as [b |] eqn:Hb; cbn; rewrite ?Hb;
    try discriminate;
    intros [= <-]; exists h; eexists; cbn; rewrite lookup_insert_eq;
    (split; [exact Hr | split; reflexivity]).
Qed.

End Waking.

Lemma X30_witness :
  exec plainEngine plainCtx None (OpJump None) playerCreated
    = (Done tt, snd (exec plainEngine plainCtx None (OpJump None) playerCreated)) /\
  exists h b,
    rbody (comp (snd (exec plainEngine plainCtx None (OpJump None) playerCreated)))
      = Some h /\
    bodies (world (snd (exec plainEngine plainCtx None (OpJump None) playerCreated)))
      !! h = Some b /\
    rb_sleeping b = false.
Proof.
  assert (exec plainEngine plainCtx None (OpJump None) playerCreated
          = (Done tt, snd (exec plainEngine plainCtx None (OpJump None) playerCreated)))
    as H by (vm_compute; reflexivity).
  split; [exact H |].
  exact (X30_changes_wake_the_body plainEngine plainCtx None (OpJump None)
           playerCreated _ H).
Defined.

(** ** The grounded test without a shape *)


